(** * Student-Intro-Evaluator: the scoring engine and its endpoint

    A shallow embedding of [scorer.py] (the rubric scorers and the
    aggregator [evaluate_introduction]) and of the [/evaluate] handler of
    [app.py], followed by the properties proved about them.

    Layout:
    - [Py]: the fragment of the Python runtime the two files rely on
      (exceptions, [str] methods, the [int]/[float] numeric tower with
      IEEE-754 binary64 arithmetic, [round] and fixed-point formatting);
    - [Scorer]: [scorer.py], function by function;
    - [App]: the request handler of [app.py];
    - [PyFacts], [ScorerFacts]: lemmas about the runtime fragment (the
      quotient of two ints does not overflow, exact comparisons, words and
      occurrences are bounded by the length) and about each scorer;
    - the properties of the scoring engine and of the endpoint;
    - [Dedented]: an appendix on the engine with line 144 of [scorer.py]
      moved back to the column of its function body.

    Transcripts are [string]s whose characters are read as the code points
    U+0000..U+00FF; [str.lower] and [str.isspace] are modelled on that
    range. *)

From Stdlib Require Import ZArith Lia List String Ascii Bool.
From Stdlib Require Import Floats.SpecFloat Numbers.DecimalString.
From stdpp Require Import gmap strings.
Import ListNotations.

Local Open Scope string_scope.
Local Open Scope Z_scope.

(* ===================================================================== *)
(** * The Python runtime fragment                                          *)
(* ===================================================================== *)

Module Py.

(** ** Exceptions *)

(** The exception classes that the modelled code can raise. *)
Inductive exn : Set :=
| ZeroDivisionError
| OverflowError
| ValueError
| TypeError
| AttributeError
| HTTPException    (* raised by the web framework on an unreadable body *)
| IndentationError. (* raised by the compiler on a mis-indented statement *)

(** A computation either returns or raises. *)
Inductive py (A : Type) : Type :=
| Ok (a : A)
| Raise (e : exn).
Arguments Ok {A} a.
Arguments Raise {A} e.

#[export] Instance py_ret : MRet py := fun _ a => Ok a.
#[export] Instance py_bind : MBind py := fun _ _ f c =>
  match c with
  | Ok a => f a
  | Raise e => Raise e
  end.

(** ** Strings *)

Definition code (c : ascii) : N := N_of_ascii c.

Definition in_range (lo hi n : N) : bool := ((lo <=? n) && (n <=? hi))%N.

(** [str.isspace] on one character: TAB..CR, FS..US, SPACE, NEL, NBSP. *)
Definition isspace (c : ascii) : bool :=
  let n := code c in
  in_range 9 13 n || in_range 28 32 n || (n =? 133)%N || (n =? 160)%N.

(** [str.lower] on one character: A-Z and the capital letters of the
    Latin-1 supplement (U+00C0..U+00DE without the multiplication sign). *)
Definition lower_char (c : ascii) : ascii :=
  let n := code c in
  if in_range 65 90 n || (in_range 192 222 n && negb (n =? 215)%N)
  then ascii_of_N (n + 32)
  else c.

(** [s.lower()] *)
Fixpoint lower (s : string) : string :=
  match s with
  | EmptyString => EmptyString
  | String c s' => String (lower_char c) (lower s')
  end.

(** [sub in s] *)
Fixpoint contains (sub s : string) : bool :=
  String.prefix sub s ||
  match s with
  | EmptyString => false
  | String _ s' => contains sub s'
  end.

(** [s.count(sub)]: occurrences found scanning from the left, the scan
    resuming after each occurrence.  [skip] is the number of characters of
    the last occurrence still to be passed over. *)
Fixpoint count_from (sub : string) (skip : nat) (s : string) : nat :=
  match s with
  | EmptyString =>
      match sub with EmptyString => 1%nat | _ => 0%nat end
  | String _ s' =>
      match skip with
      | S k => count_from sub k s'
      | O =>
          if String.prefix sub s
          then S (count_from sub (Nat.pred (String.length sub)) s')
          else count_from sub 0 s'
      end
  end.

Definition count (s sub : string) : nat := count_from sub 0 s.

(** [s.split()]: the maximal runs of non-whitespace characters. *)
Fixpoint split (s : string) : list string :=
  match s with
  | EmptyString => []
  | String c s' =>
      if isspace c then split s'
      else
        match s' with
        | EmptyString => [String c EmptyString]
        | String c' _ =>
            if isspace c' then String c EmptyString :: split s'
            else
              match split s' with
              | w :: ws => String c w :: ws
              | [] => [String c EmptyString]
              end
        end
  end.

(** [s.split(sep)] for a one-character separator: every piece is kept,
    the empty ones too. *)
Fixpoint split_on (sep : ascii) (s : string) : list string :=
  match s with
  | EmptyString => [EmptyString]
  | String c s' =>
      if Ascii.eqb c sep then EmptyString :: split_on sep s'
      else
        match split_on sep s' with
        | w :: ws => String c w :: ws
        | [] => [String c EmptyString]
        end
  end.

Fixpoint lstrip (s : string) : string :=
  match s with
  | EmptyString => EmptyString
  | String c s' => if isspace c then lstrip s' else s
  end.

Fixpoint rstrip (s : string) : string :=
  match s with
  | EmptyString => EmptyString
  | String c s' =>
      match rstrip s' with
      | EmptyString => if isspace c then EmptyString else String c EmptyString
      | r => String c r
      end
  end.

(** [s.strip()] *)
Definition strip (s : string) : string := rstrip (lstrip s).

(** Truth value of a string: non-empty. *)
Definition truthy (s : string) : bool :=
  match s with EmptyString => false | _ => true end.

(** [sep.join(l)] *)
Fixpoint join (sep : string) (l : list string) : string :=
  match l with
  | [] => EmptyString
  | [x] => x
  | x :: rest => x ++ sep ++ join sep rest
  end.

(** [str(n)] for an [int]. *)
Definition str_of_Z (z : Z) : string := NilZero.string_of_int (Z.to_int z).

(** [len(l)] *)
Definition len {A} (l : list A) : Z := Z.of_nat (List.length l).

(** The largest length the interpreter gives to a string or a list
    ([sys.maxsize] on a 64-bit build). *)
Definition PY_SSIZE_T_MAX : Z := 2 ^ 63 - 1.

(** A string the interpreter can hold. *)
Definition str_fits (s : string) : Prop :=
  Z.of_nat (String.length s) <= PY_SSIZE_T_MAX.

(** ** Numbers

    A Python number is an [int] (unbounded) or a [float] (IEEE-754
    binary64, here [spec_float] at precision 53). *)

Definition prec : Z := 53.
Definition emax : Z := 1024.

Abbreviation float := spec_float.

Inductive num : Set :=
| Int (z : Z)
| Float (f : float).

Definition is_inf (f : float) : bool :=
  match f with S754_infinity _ => true | _ => false end.

(** The float nearest to the fraction [p/q], ties to even; this is how a
    decimal literal and the quotient of two ints are rounded. *)
Definition nearest_ratio (neg : bool) (p q : positive) : float :=
  SFdiv prec emax (S754_finite neg p 0) (S754_finite false q 0).

(** The float nearest to an int. *)
Definition float_of_Z (z : Z) : float := binary_normalize prec emax z 0 false.

(** The literals of [scorer.py]. *)
Definition lit_0_9 : float := nearest_ratio false 9 10.
Definition lit_0_7 : float := nearest_ratio false 7 10.
Definition lit_0_5 : float := nearest_ratio false 5 10.
Definition lit_0_3 : float := nearest_ratio false 3 10.

(** [float(n)]; an int beyond the float range raises. *)
Definition to_float (n : num) : py float :=
  match n with
  | Float f => Ok f
  | Int z =>
      let f := float_of_Z z in
      if is_inf f then Raise OverflowError else Ok f
  end.

(** [a / b] on two ints: the correctly rounded quotient. *)
Definition int_truediv (a b : Z) : py float :=
  match b with
  | Z0 => Raise ZeroDivisionError
  | _ =>
      match a with
      | Z0 => Ok (S754_zero (b <? 0))
      | _ =>
          let q := SFdiv prec emax
                     (S754_finite (a <? 0) (Z.to_pos (Z.abs a)) 0)
                     (S754_finite (b <? 0) (Z.to_pos (Z.abs b)) 0) in
          if is_inf q then Raise OverflowError else Ok q
      end
  end.

Definition float_truediv (x y : float) : py float :=
  match y with
  | S754_zero _ => Raise ZeroDivisionError
  | _ => Ok (SFdiv prec emax x y)
  end.

(** [x / y] *)
Definition truediv (x y : num) : py num :=
  match x, y with
  | Int a, Int b => q ← int_truediv a b; mret (Float q)
  | _, _ =>
      fx ← to_float x; fy ← to_float y;
      q ← float_truediv fx fy; mret (Float q)
  end.

(** [x * y] *)
Definition mul (x y : num) : py num :=
  match x, y with
  | Int a, Int b => mret (Int (a * b))
  | _, _ => fx ← to_float x; fy ← to_float y; mret (Float (SFmul prec emax fx fy))
  end.

(** [x - y] *)
Definition sub (x y : num) : py num :=
  match x, y with
  | Int a, Int b => mret (Int (a - b))
  | _, _ => fx ← to_float x; fy ← to_float y; mret (Float (SFsub prec emax fx fy))
  end.

(** The exact value of a number: comparisons between ints and floats are
    made on exact values, never after a conversion. *)
Inductive xval : Set :=
| XNaN
| XInf (neg : bool)
| XFin (m e : Z).  (* m * 2^e *)

Definition fval (f : float) : xval :=
  match f with
  | S754_zero _ => XFin 0 0
  | S754_infinity s => XInf s
  | S754_nan => XNaN
  | S754_finite s m e => XFin (if s then Zneg m else Zpos m) e
  end.

Definition nval (n : num) : xval :=
  match n with
  | Int z => XFin z 0
  | Float f => fval f
  end.

Definition xcompare (a b : xval) : option comparison :=
  match a, b with
  | XNaN, _ | _, XNaN => None
  | XInf s1, XInf s2 =>
      Some (if s1 then (if s2 then Eq else Lt) else (if s2 then Gt else Eq))
  | XInf s, XFin _ _ => Some (if s then Lt else Gt)
  | XFin _ _, XInf s => Some (if s then Gt else Lt)
  | XFin m1 e1, XFin m2 e2 =>
      let e := Z.min e1 e2 in
      Some (Z.compare (m1 * 2 ^ (e1 - e)) (m2 * 2 ^ (e2 - e)))
  end.

Definition compare (x y : num) : option comparison := xcompare (nval x) (nval y).

(** [x < y], [x <= y], [x > y], [x >= y], [x == y]; all false on a NaN. *)
Definition lt (x y : num) : bool :=
  match compare x y with Some Lt => true | _ => false end.
Definition le (x y : num) : bool :=
  match compare x y with Some Lt | Some Eq => true | _ => false end.
Definition gt (x y : num) : bool := lt y x.
Definition ge (x y : num) : bool := le y x.
Definition eq (x y : num) : bool :=
  match compare x y with Some Eq => true | _ => false end.

(** [min(x, y)] and [max(x, y)]: the first argument is kept unless the
    second is strictly smaller (larger). *)
Definition min2 (x y : num) : num := if lt y x then y else x.
Definition max2 (x y : num) : num := if gt y x then y else x.

(** [|x| * 10^nd] rounded to the nearest integer, ties to even, for a
    finite non-zero float of mantissa [m] and exponent [e]. *)
Definition scaled_half_even (m : positive) (e : Z) (nd : nat) : Z :=
  let n := Zpos m * 10 ^ Z.of_nat nd in
  if 0 <=? e then n * 2 ^ e
  else
    let d := 2 ^ (- e) in
    let q := n / d in
    let r := n mod d in
    match Z.compare (2 * r) d with
    | Lt => q
    | Gt => q + 1
    | Eq => if Z.even q then q else q + 1
    end.

(** [round(x, nd)] on a float, for the small digit counts the program
    uses: the exact value is rounded to [nd] decimals (ties to even) and
    the decimal read back as the nearest float. *)
Definition float_round (x : float) (nd : nat) : float :=
  match x with
  | S754_finite s m e =>
      match scaled_half_even m e nd with
      | Zpos p => nearest_ratio s p (Pos.pow 10 (Pos.of_nat nd))
      | _ => S754_zero s
      end
  | _ => x
  end.

(** [round(x, nd)]; an int is its own rounding for [nd >= 0]. *)
Definition round (x : num) (nd : nat) : num :=
  match x with
  | Int z => Int z
  | Float f => Float (float_round f nd)
  end.

Definition digit_char (d : Z) : ascii := ascii_of_N (48 + Z.to_N d).

(** The last [w] decimal digits of [n], zero-padded. *)
Fixpoint fixed_digits (w : nat) (n : Z) : string :=
  match w with
  | O => EmptyString
  | S w' => fixed_digits w' (n / 10) ++ String (digit_char (n mod 10)) EmptyString
  end.

Definition point_digits (nd : nat) (n : Z) : string :=
  let p := 10 ^ Z.of_nat nd in
  str_of_Z (n / p) ++
  match nd with
  | O => EmptyString
  | _ => "." ++ fixed_digits nd (n mod p)
  end.

(** [format(x, '.{nd}f')] on a float. *)
Definition float_format (nd : nat) (x : float) : string :=
  match x with
  | S754_nan => "nan"
  | S754_infinity s => if s then "-inf" else "inf"
  | S754_zero s => (if s then "-" else "") ++ point_digits nd 0
  | S754_finite s m e =>
      (if s then "-" else "") ++ point_digits nd (scaled_half_even m e nd)
  end.

(** [format(x, '.{nd}f')]: an int is converted to a float first. *)
Definition format_f (nd : nat) (x : num) : py string :=
  f ← to_float x; mret (float_format nd f).

(** ** Dynamic values

    What [request.get_json()] can return: the Python image of a JSON
    document. *)
#[warnings="-register-all"]
Inductive value :=
| VNone
| VBool (b : bool)
| VInt (z : Z)
| VFloat (f : float)
| VStr (s : string)
| VList (l : list value)
| VDict (d : gmap string value).

(** [data.get(key, default)]; only a dict has the method. *)
Definition get (data : value) (key : string) (default : value) : py value :=
  match data with
  | VDict d =>
      match d !! key with
      | Some v => Ok v
      | None => Ok default
      end
  | _ => Raise AttributeError
  end.

(** The receiver of a [str] method: anything else has no such attribute. *)
Definition as_str (v : value) : py string :=
  match v with
  | VStr s => Ok s
  | _ => Raise AttributeError
  end.

Definition is_digit (c : ascii) : bool := in_range 48 57 (code c).

(** The digits of an integer literal: decimal digits, single underscores
    allowed between two digits.  [after_digit] tells whether the previous
    character was a digit. *)
Fixpoint literal_digits (s : string) (acc : Z) (after_digit : bool) : option Z :=
  match s with
  | EmptyString => if after_digit then Some acc else None
  | String c s' =>
      if is_digit c
      then literal_digits s' (10 * acc + (Z.of_N (code c) - 48)) true
      else if Ascii.eqb c "_" && after_digit
      then literal_digits s' acc false
      else None
  end.

(** [int(s)] on a string: surrounding whitespace, an optional sign, the
    digits.  (The cap that recent interpreters put on the number of digits
    is not modelled.) *)
Definition int_of_str (s : string) : py Z :=
  let body := strip s in
  let parsed :=
    match body with
    | String "+" r => literal_digits r 0 false
    | String "-" r => Z.opp <$> literal_digits r 0 false
    | _ => literal_digits body 0 false
    end in
  match parsed with
  | Some z => Ok z
  | None => Raise ValueError
  end.

(** [int(x)] on a float: truncation towards zero. *)
Definition int_of_float (f : float) : py Z :=
  match f with
  | S754_nan => Raise ValueError
  | S754_infinity _ => Raise OverflowError
  | S754_zero _ => Ok 0
  | S754_finite s m e =>
      let a := if 0 <=? e then Zpos m * 2 ^ e else Zpos m / 2 ^ (- e) in
      Ok (if s then - a else a)
  end.

(** [int(x)] *)
Definition int (v : value) : py Z :=
  match v with
  | VInt z => Ok z
  | VBool b => Ok (if b then 1 else 0)
  | VFloat f => int_of_float f
  | VStr s => int_of_str s
  | VNone | VList _ | VDict _ => Raise TypeError
  end.

End Py.

Module PyTests.
Import Py.

Example split_words :
  split "  Hi,  myself John. " = ["Hi,"; "myself"; "John."].
Proof. reflexivity. Qed.

Example split_tabs_newlines :
  split (String (ascii_of_N 9) ("ab" ++ String (ascii_of_N 10) "c")) = ["ab"; "c"].
Proof. reflexivity. Qed.

Example split_on_dot : split_on "." "a.b..c." = ["a"; "b"; ""; "c"; ""].
Proof. reflexivity. Qed.

Example strip_both : strip "  a b  " = "a b".
Proof. reflexivity. Qed.

Example strip_blank : strip "   " = "".
Proof. reflexivity. Qed.

Example lower_mixed : lower "Hi, John!" = "hi, john!".
Proof. reflexivity. Qed.

Example contains_inner : contains "hi" "this" = true.
Proof. reflexivity. Qed.

Example contains_absent : contains "hello" "help" = false.
Proof. reflexivity. Qed.

Example count_disjoint : count "aaaa" "aa" = 2%nat.
Proof. reflexivity. Qed.

Example count_words : count "so, um, so so" "so" = 3%nat.
Proof. reflexivity. Qed.

Example join_two : join ", " ["age"; "family"] = "age, family".
Proof. reflexivity. Qed.

Example str_of_Z_neg : str_of_Z (-12) = "-12".
Proof. reflexivity. Qed.

Example one_third :
  int_truediv 1 3 = Ok (S754_finite false 6004799503160661 (-54)).
Proof. reflexivity. Qed.

Example ratio_5_10 : int_truediv 5 10 = Ok (S754_finite false 4503599627370496 (-53)).
Proof. reflexivity. Qed.

Example zero_over_neg : int_truediv 0 (-5) = Ok (S754_zero true).
Proof. reflexivity. Qed.

Example div_by_zero : int_truediv 7 0 = Raise ZeroDivisionError.
Proof. reflexivity. Qed.

Example literal_matches_quotient : int_truediv 9 10 = Ok lit_0_9.
Proof. reflexivity. Qed.

Example int_float_exact_compare :
  lt (Float lit_0_9) (Int 1) = true /\ ge (Float lit_0_5) (Float lit_0_5) = true.
Proof. split; reflexivity. Qed.

Example round_tie_even :
  (* 0.125 and 0.375 are exact in binary: ties go to the even digit *)
  float_format 2 (nearest_ratio false 1 8) = "0.12" /\
  float_format 2 (nearest_ratio false 3 8) = "0.38".
Proof. split; reflexivity. Qed.

Example format_wpm :
  (q ← truediv (Int 96) (Int 52); w ← mul q (Int 60); format_f 1 w) = Ok "110.8".
Proof. reflexivity. Qed.

Example round_wpm :
  (q ← truediv (Int 95) (Int 52); w ← mul q (Int 60); mret (round w 1))
  = Ok (Float (nearest_ratio false 1096 10)).
Proof. reflexivity. Qed.

Example format_int_zero : format_f 1 (Int 0) = Ok "0.0".
Proof. reflexivity. Qed.

Example int_of_padded : int (VStr " 30 ") = Ok 30.
Proof. reflexivity. Qed.

Example int_of_signed : int (VStr "-1_000") = Ok (-1000).
Proof. reflexivity. Qed.

Example int_of_word : int (VStr "abc") = Raise ValueError.
Proof. reflexivity. Qed.

Example int_of_decimal_text : int (VStr "52.5") = Raise ValueError.
Proof. reflexivity. Qed.

Example int_of_half : int (VFloat (nearest_ratio true 5 2)) = Ok (-2).
Proof. reflexivity. Qed.

Example int_of_null : int VNone = Raise TypeError.
Proof. reflexivity. Qed.

End PyTests.

(* ===================================================================== *)
(** * scorer.py                                                            *)
(* ===================================================================== *)

Module Scorer.
Import Py.

(** ** The result dictionaries

    Each scorer returns a dict with fixed keys; one record per dict, in a
    module of its own so that the keys keep their names. *)

Module Salutation.
Record result := { score : Z; level : string; feedback : string }.
End Salutation.

Module Keywords.
Record result :=
  { score : Z; found : list string; missing : list string; feedback : string }.
End Keywords.

Module Flow.
Record result := { score : Z; feedback : string }.
End Flow.

Module Speech.
Record result := { score : Z; wpm : num; feedback : string }.
End Speech.

Module Grammar.
Record result :=
  { score : Z; errors : Z; errors_per_100 : num; feedback : string }.
End Grammar.

(** The dict returned for a transcript without words has no
    ['unique_words'] and no ['total_words'] key: [None] is an absent key. *)
Module Vocabulary.
Record result :=
  { score : Z; ttr : num;
    unique_words : option Z; total_words : option Z;
    feedback : string }.
End Vocabulary.

Module Clarity.
Record result :=
  { score : Z; filler_count : Z; filler_rate : num; feedback : string }.
End Clarity.

(** The dict returned by the sentiment analyzer's [polarity_scores]. *)
Record polarity := { neg : float; neu : float; pos : float; compound : float }.

Module Engagement.
Record result :=
  { score : Z; positive_score : num; sentiment : polarity; feedback : string }.
End Engagement.

Module ContentStructure.
Record t :=
  { score : Z; max : Z;
    salutation : Salutation.result;
    keywords : Keywords.result;
    flow : Flow.result }.
End ContentStructure.

Module SpeechRate.
Record t := { score : Z; max : Z; details : Speech.result }.
End SpeechRate.

Module LanguageGrammar.
Record t :=
  { score : Z; max : Z;
    grammar : Grammar.result;
    vocabulary : Vocabulary.result }.
End LanguageGrammar.

Module ClarityCat.
Record t := { score : Z; max : Z; details : Clarity.result }.
End ClarityCat.

Module EngagementCat.
Record t := { score : Z; max : Z; details : Engagement.result }.
End EngagementCat.

Record categories :=
  { content_structure : ContentStructure.t;
    speech_rate : SpeechRate.t;
    language_grammar : LanguageGrammar.t;
    clarity : ClarityCat.t;
    engagement : EngagementCat.t }.

Record report :=
  { overall_score : Z;
    max_score : Z;
    percentage : num;
    cats : categories;           (* key 'categories' *)
    word_count : Z;
    duration_sec : Z }.

(** ** Constants *)

Definition FILLER_WORDS : list string :=
  ["um"; "uh"; "like"; "you know"; "so"; "actually"; "basically";
   "right"; "i mean"; "well"; "kinda"; "sort of"; "okay"; "hmm"; "ah"].

(** [any(kw in text for kw in keywords)] *)
Definition any_in (keywords : list string) (text : string) : bool :=
  existsb (fun kw => contains kw text) keywords.

(** ** evaluate_salutation *)

Definition good_greetings : list string :=
  ["good morning"; "good afternoon"; "good evening"; "good day"; "hello everyone"].

Definition evaluate_salutation (transcript : string) : Salutation.result :=
  let text_lower := lower transcript in
  if contains "excited to introduce" text_lower || contains "feeling great" text_lower
  then {| Salutation.score := 5; Salutation.level := "Excellent";
          Salutation.feedback := "Excellent greeting with enthusiasm" |}
  else if any_in good_greetings text_lower
  then {| Salutation.score := 4; Salutation.level := "Good";
          Salutation.feedback := "Good formal greeting" |}
  else if contains "hi" text_lower || contains "hello" text_lower
  then {| Salutation.score := 2; Salutation.level := "Normal";
          Salutation.feedback := "Basic greeting found" |}
  else {| Salutation.score := 0; Salutation.level := "None";
          Salutation.feedback := "No greeting detected" |}.

(** ** evaluate_keyword_presence *)

(** The dict literals, in insertion order (the order of iteration). *)
Definition must_have : list (string * list string) :=
  [("name", ["name"; "myself"; "i am"; "i'm"]);
   ("age", ["years old"; "age"; "year old"]);
   ("school/class", ["class"; "school"; "studying"; "student"]);
   ("family", ["family"; "father"; "mother"; "parents"; "brother"; "sister"]);
   ("hobbies", ["hobby"; "hobbies"; "enjoy"; "like"; "love"; "play"; "playing"])].

Definition good_to_have : list (string * list string) :=
  [("about family", ["kind"; "loving"; "caring"; "supportive"]);
   ("origin", ["from"; "live in"; "come from"]);
   ("ambition/goal", ["ambition"; "goal"; "dream"; "want to"; "aspire"]);
   ("fun fact", ["fun fact"; "interesting"; "unique"; "special"]);
   ("strengths", ["good at"; "strength"; "achievement"; "proud"])].

(** The first loop: the state is [(score, found_keywords, missing_keywords)]. *)
Fixpoint must_have_loop (items : list (string * list string)) (text_lower : string)
    (st : Z * list string * list string) : Z * list string * list string :=
  match items with
  | [] => st
  | (category, keywords) :: rest =>
      let '(score, found_keywords, missing_keywords) := st in
      if any_in keywords text_lower
      then must_have_loop rest text_lower
             (score + 4, (found_keywords ++ [category])%list, missing_keywords)
      else must_have_loop rest text_lower
             (score, found_keywords, (missing_keywords ++ [category])%list)
  end.

(** The second loop: the state is [(good_count, found_keywords)]. *)
Fixpoint good_to_have_loop (items : list (string * list string)) (text_lower : string)
    (st : Z * list string) : Z * list string :=
  match items with
  | [] => st
  | (category, keywords) :: rest =>
      let '(good_count, found_keywords) := st in
      if any_in keywords text_lower
      then good_to_have_loop rest text_lower (good_count + 1, (found_keywords ++ [category])%list)
      else good_to_have_loop rest text_lower st
  end.

Definition evaluate_keyword_presence (transcript : string) : Keywords.result :=
  let text_lower := lower transcript in
  let '(score, found_keywords, missing_keywords) :=
    must_have_loop must_have text_lower (0, [], []) in
  let '(good_count, found_keywords) :=
    good_to_have_loop good_to_have text_lower (0, found_keywords) in
  let score := score + Z.min (good_count * 2) 10 in
  {| Keywords.score := score;
     Keywords.found := found_keywords;
     Keywords.missing := missing_keywords;
     Keywords.feedback :=
       "Found " ++ str_of_Z (len found_keywords) ++ " keywords. Missing: " ++
       (match missing_keywords with
        | [] => "None"
        | _ => join ", " missing_keywords
        end) |}.

(** ** evaluate_flow *)

Definition flow_greetings : list string :=
  ["hello"; "hi"; "good morning"; "good afternoon"; "good evening"].
Definition name_words : list string := ["name"; "myself"; "i am"; "i'm"].
Definition closing_words : list string := ["thank"; "thanks"; "listening"].

(** [[s.strip() for s in transcript.split('.') if s.strip()]] *)
Definition sentences_of (transcript : string) : list string :=
  List.filter truthy (List.map strip (split_on "." transcript)).

(** [for i in range(...)]: the indices still to visit; [break] on the first
    sentence that names the speaker. *)
Fixpoint name_loop (indices : list nat) (sentences : list string) : bool :=
  match indices with
  | [] => false
  | i :: rest =>
      match sentences !! i with
      | Some s => if any_in name_words (lower s) then true else name_loop rest sentences
      | None => false
      end
  end.

Definition has_salutation_first (sentences : list string) : bool :=
  if 2 <=? len sentences then
    match sentences with
    | first_sentence :: _ => any_in flow_greetings (lower first_sentence)
    | [] => false
    end
  else false.

Definition has_name_early (sentences : list string) : bool :=
  name_loop (seq 0 (Nat.min 3 (List.length sentences))) sentences.

Definition has_closing (sentences : list string) : bool :=
  match sentences with
  | [] => false
  | _ => any_in closing_words (lower (List.last sentences EmptyString))
  end.

Definition evaluate_flow (transcript : string) : Flow.result :=
  let sentences := sentences_of transcript in
  let a := has_salutation_first sentences in
  let b := has_name_early sentences in
  let c := has_closing sentences in
  if a && b && c
  then {| Flow.score := 5; Flow.feedback := "Excellent flow with proper order" |}
  else if a && b
  then {| Flow.score := 4; Flow.feedback := "Good flow, missing proper closing" |}
  else if b
  then {| Flow.score := 2; Flow.feedback := "Partial flow detected" |}
  else {| Flow.score := 0; Flow.feedback := "Flow order not followed" |}.

(** ** evaluate_speech_rate *)

(** The [if]/[elif] ladder of the function; [shown] is [f'{wpm:.1f}']. *)
Definition speech_band (wpm : num) (shown : string) : Z * string :=
  if le (Int 111) wpm && le wpm (Int 140)
  then (10, "Ideal speech rate: " ++ shown ++ " WPM")
  else if (le (Int 141) wpm && le wpm (Int 160)) || (le (Int 81) wpm && le wpm (Int 110))
  then (6, "Acceptable speech rate: " ++ shown ++ " WPM")
  else if gt wpm (Int 160)
  then (2, "Too fast: " ++ shown ++ " WPM")
  else (2, "Too slow: " ++ shown ++ " WPM").

Definition evaluate_speech_rate (transcript : string) (duration_sec : Z)
  : py Speech.result :=
  let words := split transcript in
  let word_count := len words in
  q ← truediv (Int word_count) (Int duration_sec);
  wpm ← mul q (Int 60);
  shown ← format_f 1 wpm;
  let '(score, feedback) := speech_band wpm shown in
  mret {| Speech.score := score; Speech.wpm := round wpm 1; Speech.feedback := feedback |}.

(** ** evaluate_grammar *)

(** The source of the function is

<<
def evaluate_grammar(transcript):
    (the docstring, at four columns)
        # Simple grammar check - ...   (a comment, at eight columns)
      matches = []  # No grammar checking without Java
    word_count = len(transcript.split())
    ...
>>

    The docstring stands at four columns and the statement [matches = []]
    at six, with no block open before it.  The compiler rejects that line
    ([IndentationError: unexpected indent], scorer.py line 144) when it
    reads the file, so the function is never defined and no call of it
    returns a result.  Every call has that outcome here; the statements
    after line 144 are never reached and have no counterpart. *)
Definition evaluate_grammar (transcript : string) : py Grammar.result :=
  Raise IndentationError.

(** ** evaluate_vocabulary *)

(** [if ttr >= 0.9 ... elif ttr >= 0.7 ... else]: the band ladder of the
    function. *)
Definition ratio_band (x : num) : Z :=
  if ge x (Float lit_0_9) then 10
  else if ge x (Float lit_0_7) then 8
  else if ge x (Float lit_0_5) then 6
  else if ge x (Float lit_0_3) then 4
  else 2.

Definition evaluate_vocabulary (transcript : string) : py Vocabulary.result :=
  let words := split (lower transcript) in
  let unique_words : gset string := list_to_set words in
  let total_words := len words in
  if total_words =? 0
  then mret {| Vocabulary.score := 0; Vocabulary.ttr := Int 0;
               Vocabulary.unique_words := None; Vocabulary.total_words := None;
               Vocabulary.feedback := "No words found" |}
  else
    let n_unique := Z.of_nat (size unique_words) in
    ttr ← truediv (Int n_unique) (Int total_words);
    let score := ratio_band ttr in
    shown ← format_f 3 ttr;
    mret {| Vocabulary.score := score;
            Vocabulary.ttr := round ttr 3;
            Vocabulary.unique_words := Some n_unique;
            Vocabulary.total_words := Some total_words;
            Vocabulary.feedback :=
              "TTR: " ++ shown ++ " (" ++ str_of_Z n_unique ++ "/" ++
              str_of_Z total_words ++ " unique words)" |}.

(** ** evaluate_clarity *)

(** [sum(text_lower.count(filler) for filler in FILLER_WORDS)] *)
Definition count_fillers (text_lower : string) : Z :=
  fold_left Z.add (List.map (fun filler => Z.of_nat (count text_lower filler)) FILLER_WORDS) 0.

(** The [if]/[elif] ladder of the function. *)
Definition clarity_band (filler_rate : num) : Z :=
  if le filler_rate (Int 3) then 15
  else if le filler_rate (Int 6) then 12
  else if le filler_rate (Int 9) then 9
  else if le filler_rate (Int 12) then 6
  else 3.

Definition evaluate_clarity (transcript : string) : py Clarity.result :=
  let text_lower := lower transcript in
  let word_count := len (split transcript) in
  let filler_count := count_fillers text_lower in
  filler_rate ←
    (if 0 <? word_count
     then q ← truediv (Int filler_count) (Int word_count); mul q (Int 100)
     else mret (Int 0));
  let score := clarity_band filler_rate in
  shown ← format_f 1 filler_rate;
  mret {| Clarity.score := score;
          Clarity.filler_count := filler_count;
          Clarity.filler_rate := round filler_rate 2;
          Clarity.feedback :=
            str_of_Z filler_count ++ " filler words found (" ++ shown ++ "% rate)" |}.

(** The [if]/[elif] ladder of [evaluate_engagement]. *)
Definition engagement_band (positive_score : num) : Z :=
  if ge positive_score (Float lit_0_9) then 15
  else if ge positive_score (Float lit_0_7) then 12
  else if ge positive_score (Float lit_0_5) then 9
  else if ge positive_score (Float lit_0_3) then 6
  else 3.

Section WithAnalyzer.

(** [sentiment_analyzer.polarity_scores]: the sentiment analyzer is a
    third-party package; its scoring function is a parameter. *)
Variable polarity_scores : string -> polarity.

(** ** evaluate_engagement *)

Definition evaluate_engagement (transcript : string) : py Engagement.result :=
  let scores := polarity_scores transcript in
  let positive_score := Float (pos scores) in
  let score := engagement_band positive_score in
  shown ← format_f 3 positive_score;
  mret {| Engagement.score := score;
          Engagement.positive_score := round positive_score 3;
          Engagement.sentiment := scores;
          Engagement.feedback := "Positive sentiment: " ++ shown |}.

(** ** evaluate_introduction *)

Definition evaluate_introduction (transcript : string) (duration_sec : Z)
  : py report :=
  let salutation := evaluate_salutation transcript in
  let keywords := evaluate_keyword_presence transcript in
  let flow := evaluate_flow transcript in
  let content_score :=
    Salutation.score salutation + Keywords.score keywords + Flow.score flow in
  speech ← evaluate_speech_rate transcript duration_sec;
  grammar ← evaluate_grammar transcript;
  vocabulary ← evaluate_vocabulary transcript;
  let language_score := Grammar.score grammar + Vocabulary.score vocabulary in
  clarity ← evaluate_clarity transcript;
  engagement ← evaluate_engagement transcript;
  let total_score :=
    content_score + Speech.score speech + language_score +
    Clarity.score clarity + Engagement.score engagement in
  frac ← truediv (Int total_score) (Int 100);
  pct ← mul frac (Int 100);
  mret {| overall_score := total_score;
          max_score := 100;
          percentage := round pct 2;
          cats :=
            {| content_structure :=
                 {| ContentStructure.score := content_score;
                    ContentStructure.max := 40;
                    ContentStructure.salutation := salutation;
                    ContentStructure.keywords := keywords;
                    ContentStructure.flow := flow |};
               speech_rate :=
                 {| SpeechRate.score := Speech.score speech;
                    SpeechRate.max := 10;
                    SpeechRate.details := speech |};
               language_grammar :=
                 {| LanguageGrammar.score := language_score;
                    LanguageGrammar.max := 20;
                    LanguageGrammar.grammar := grammar;
                    LanguageGrammar.vocabulary := vocabulary |};
               clarity :=
                 {| ClarityCat.score := Clarity.score clarity;
                    ClarityCat.max := 15;
                    ClarityCat.details := clarity |};
               engagement :=
                 {| EngagementCat.score := Engagement.score engagement;
                    EngagementCat.max := 15;
                    EngagementCat.details := engagement |} |};
          word_count := len (split transcript);
          duration_sec := duration_sec |}.

End WithAnalyzer.

End Scorer.

(* ===================================================================== *)
(** * app.py                                                               *)
(* ===================================================================== *)

Module App.
Import Py Scorer.

(** The body of a POST request as [request.get_json()] sees it: a parsed
    document, or a body it cannot read (it raises). *)
Inductive request :=
| Unreadable
| Parsed (data : value).

Definition get_json (req : request) : py value :=
  match req with
  | Unreadable => Raise HTTPException
  | Parsed data => Ok data
  end.

(** What the handler returns.  Of a server error the class of the
    exception is kept; the text of its message, [str(e)], which can quote
    the offending value, is not represented: two answers [Json500 e] with
    the same [e] need not carry the same text. *)
Inductive response :=
| Json200 (results : report)     (* jsonify(results) *)
| Json400 (error : string)       (* jsonify({'error': error}), 400 *)
| Json500 (e : exn).             (* jsonify({'error': str(e)}), 500 *)

(** The statements of [evaluate] that precede the call of the scoring
    engine end in one of two ways: the handler answers at once, or it calls
    [evaluate_introduction] on a transcript and a duration. *)
Inductive step :=
| Answer (r : response)
| Call (transcript : string) (duration : Z).

Definition before_scoring (req : request) : py step :=
  data ← get_json req;
  transcript ← get data "transcript" (VStr "");
  raw ← get data "duration" (VInt 52);
  duration ← int raw;
  text ← as_str transcript;
  if negb (truthy (strip text))
  then mret (Answer (Json400 "Transcript cannot be empty"))
  else mret (Call text duration).

Section WithAnalyzer.

Variable polarity_scores : string -> polarity.

(** [evaluate]: the handler of [POST /evaluate]; [except Exception] turns
    every exception raised inside into a 500 answer. *)
Definition evaluate (req : request) : response :=
  match before_scoring req with
  | Raise e => Json500 e
  | Ok (Answer r) => r
  | Ok (Call transcript duration) =>
      match evaluate_introduction polarity_scores transcript duration with
      | Ok results => Json200 results
      | Raise e => Json500 e
      end
  end.

End WithAnalyzer.

End App.

(* ===================================================================== *)
(** * Facts about the runtime fragment                                     *)
(* ===================================================================== *)

Module PyFacts.
Import Py.

(** ** The quotient of two ints does not overflow *)

Lemma digits2_pos_bounds (p : positive) :
  2 ^ (Zpos (digits2_pos p) - 1) <= Zpos p < 2 ^ Zpos (digits2_pos p).
Proof.
  induction p as [p IH | p IH |]; cbn [digits2_pos].
  - rewrite Pos2Z.inj_succ, Z.pow_succ_r by lia.
    replace (Z.succ (Zpos (digits2_pos p)) - 1) with (Z.succ (Zpos (digits2_pos p) - 1)) by lia.
    rewrite Z.pow_succ_r by lia. lia.
  - rewrite Pos2Z.inj_succ, Z.pow_succ_r by lia.
    replace (Z.succ (Zpos (digits2_pos p)) - 1) with (Z.succ (Zpos (digits2_pos p) - 1)) by lia.
    rewrite Z.pow_succ_r by lia. lia.
  - cbn. lia.
Qed.

Lemma Zdigits2_nonneg (m : Z) : 0 <= Zdigits2 m.
Proof. destruct m; cbn; lia. Qed.

Lemma Zdigits2_gt (m : Z) : Z.abs m < 2 ^ Zdigits2 m.
Proof.
  destruct m as [| p | p]; cbn [Zdigits2 Z.abs].
  - cbn. lia.
  - apply digits2_pos_bounds.
  - apply digits2_pos_bounds.
Qed.

Lemma Zdigits2_le (m k : Z) : 0 <= k -> Z.abs m < 2 ^ k -> Zdigits2 m <= k.
Proof.
  intros Hk Hm.
  destruct m as [| p | p]; cbn [Zdigits2 Z.abs] in *; try lia.
  all: pose proof (digits2_pos_bounds p) as [Hlo _];
    assert (2 ^ (Zpos (digits2_pos p) - 1) < 2 ^ k) as Hlt by lia;
    apply Z.pow_lt_mono_r_iff in Hlt; lia.
Qed.

Lemma Zdigits2_mono (a b : Z) : Z.abs a <= Z.abs b -> Zdigits2 a <= Zdigits2 b.
Proof.
  intros H. apply Zdigits2_le; [apply Zdigits2_nonneg |].
  pose proof (Zdigits2_gt b). lia.
Qed.

Lemma Zdigits2_succ (m : Z) : Zdigits2 (m + 1) <= Zdigits2 m + 1.
Proof.
  pose proof (Zdigits2_nonneg m) as Hn.
  apply Zdigits2_le; [lia |].
  rewrite Z.pow_add_r, Z.pow_1_r by lia.
  pose proof (Zdigits2_gt m). lia.
Qed.

Lemma Zdigits2_shiftl (m s : Z) :
  0 <= s -> Zdigits2 (m * 2 ^ s) <= Zdigits2 m + s.
Proof.
  intros Hs. pose proof (Zdigits2_nonneg m) as Hn.
  apply Zdigits2_le; [lia |].
  rewrite Z.abs_mul, Z.pow_add_r by lia.
  pose proof (Zdigits2_gt m) as Hm.
  assert (0 < 2 ^ s) by (apply Z.pow_pos_nonneg; lia).
  rewrite (Z.abs_eq (2 ^ s)) by lia.
  apply Z.mul_lt_mono_pos_r; lia.
Qed.

Lemma round_nearest_even_digits (m : Z) (l : location) :
  Zdigits2 (round_nearest_even m l) <= Zdigits2 m + 1.
Proof.
  pose proof (Zdigits2_succ m).
  destruct l as [| []]; cbn [round_nearest_even]; try lia.
  destruct (Z.even m); lia.
Qed.

Lemma shr_1_digits (mrs : shr_record) :
  Zdigits2 (shr_m (shr_1 mrs)) = Z.max 0 (Zdigits2 (shr_m mrs) - 1).
Proof.
  destruct mrs as [m r s].
  destruct m as [| [p | p |] | [p | p |]]; cbn [shr_1 shr_m Zdigits2 digits2_pos];
    rewrite ?Pos2Z.inj_succ; lia.
Qed.

Lemma iter_shr_1_digits (p : positive) (mrs : shr_record) :
  Zdigits2 (shr_m (@SpecFloat.iter_pos shr_record shr_1 p mrs)) = Z.max 0 (Zdigits2 (shr_m mrs) - Zpos p).
Proof.
  revert mrs.
  induction p as [p IH | p IH |]; intros mrs; cbn [SpecFloat.iter_pos].
  - rewrite !IH, shr_1_digits. lia.
  - rewrite !IH. lia.
  - apply shr_1_digits.
Qed.

Lemma shr_record_of_loc_m (m : Z) (l : location) : shr_m (shr_record_of_loc m l) = m.
Proof. destruct l as [| []]; reflexivity. Qed.

(** What one rounding shift does to the exponent and to the width. *)
Lemma shr_fexp_bounds (m e : Z) (l : location) :
  let r := shr_fexp prec emax m e l in
  snd r = Z.max e (fexp prec emax (Zdigits2 m + e)) /\
  Zdigits2 (shr_m (fst r)) + snd r <= Z.max (Zdigits2 m + e) (snd r).
Proof.
  unfold shr_fexp, shr.
  pose proof (shr_record_of_loc_m m l) as Hm.
  destruct (fexp prec emax (Zdigits2 m + e) - e) as [| n | n] eqn:Hn;
    cbn [fst snd].
  - rewrite Hm. lia.
  - rewrite iter_shr_1_digits, Hm. lia.
  - rewrite Hm. lia.
Qed.

Lemma fexp_le (x b : Z) : x <= b + 53 -> -1074 <= b -> fexp prec emax x <= b.
Proof. unfold fexp, SpecFloat.emin, prec, emax. lia. Qed.

Lemma binary_round_aux_finite (s : bool) (m e : Z) (l : location) :
  Zdigits2 m + e <= 1023 -> e <= 971 ->
  is_inf (binary_round_aux prec emax s m e l) = false.
Proof.
  intros Hd He. unfold binary_round_aux.
  pose proof (shr_fexp_bounds m e l) as [He1 Hd1].
  destruct (shr_fexp prec emax m e l) as [mrs1 e1]; cbn [fst snd] in *.
  pose proof (fexp_le (Zdigits2 m + e) 971 ltac:(lia) ltac:(lia)) as Hf1.
  set (m2 := round_nearest_even (shr_m mrs1) (loc_of_shr_record mrs1)).
  pose proof (round_nearest_even_digits (shr_m mrs1) (loc_of_shr_record mrs1)) as Hm2.
  fold m2 in Hm2.
  pose proof (shr_fexp_bounds m2 e1 loc_Exact) as [He2 _].
  destruct (shr_fexp prec emax m2 e1 loc_Exact) as [mrs2 e2]; cbn [fst snd] in *.
  pose proof (fexp_le (Zdigits2 m2 + e1) 971 ltac:(lia) ltac:(lia)) as Hf2.
  destruct (shr_m mrs2); try reflexivity.
  replace (e2 <=? emax - prec) with true; [reflexivity |].
  symmetry. apply Z.leb_le. unfold emax, prec. lia.
Qed.

Lemma SFdiv_ints_finite (sa sb : bool) (pa pb : positive) :
  Zpos pa < 2 ^ 1023 ->
  is_inf (SFdiv prec emax (S754_finite sa pa 0) (S754_finite sb pb 0)) = false.
Proof.
  intros Ha. unfold SFdiv, SFdiv_core_binary.
  set (d1 := Zdigits2 (Zpos pa)). set (d2 := Zdigits2 (Zpos pb)).
  assert (d1 <= 1023) as Hd1.
  { apply Zdigits2_le; [lia | cbn [Z.abs]; exact Ha]. }
  pose proof (Zdigits2_nonneg (Zpos pa)) as Hd1n. fold d1 in Hd1n.
  set (e' := Z.min (fexp prec emax (d1 + 0 - (d2 + 0))) (0 - 0)).
  assert (e' <= 0) as He' by (subst e'; lia).
  set (m' := match 0 - 0 - e' with
             | 0 => Zpos pa
             | Zpos _ => Z.shiftl (Zpos pa) (0 - 0 - e')
             | Zneg _ => 0
             end).
  assert (m' = Zpos pa * 2 ^ (- e')) as Hm'.
  { subst m'. destruct (0 - 0 - e') as [| n | n] eqn:Hs.
    - replace (- e') with 0 by lia. cbn. lia.
    - rewrite Z.shiftl_mul_pow2 by lia. f_equal. f_equal. lia.
    - lia. }
  assert (0 < 2 ^ (- e')) as Hpow by (apply Z.pow_pos_nonneg; lia).
  pose proof (Z_div_mod m' (Zpos pb) ltac:(lia)) as Hdiv.
  destruct (Z.div_eucl m' (Zpos pb)) as [q r].
  destruct Hdiv as [Hq Hr].
  apply binary_round_aux_finite; [| lia].
  assert (0 <= q <= m') as Hqb by nia.
  pose proof (Zdigits2_mono q m' ltac:(lia)) as Hmono.
  pose proof (Zdigits2_shiftl (Zpos pa) (- e') ltac:(lia)) as Hsh.
  rewrite <- Hm' in Hsh. fold d1 in Hsh. lia.
Qed.

(** [a / b] returns for every int [a] below [2^1023] in absolute value and
    every non-zero [b]. *)
Lemma int_truediv_ok (a b : Z) :
  Z.abs a < 2 ^ 1023 -> b <> 0 -> exists f, int_truediv a b = Ok f.
Proof.
  intros Ha Hb. unfold int_truediv.
  destruct b as [| pb | pb]; [lia | |];
    (destruct a as [| pa | pa]; [eexists; reflexivity | |]);
    cbn [Z.abs Z.to_pos] in *.
  all: match goal with
       | |- context [SFdiv prec emax (S754_finite ?sa ?pa 0) (S754_finite ?sb ?pb 0)] =>
           rewrite (SFdiv_ints_finite sa sb pa pb Ha)
       end; eexists; reflexivity.
Qed.

Lemma int_truediv_zero (b : Z) :
  b <> 0 -> int_truediv 0 b = Ok (S754_zero (b <? 0)).
Proof. intros Hb. destruct b; [lia | reflexivity | reflexivity]. Qed.

(** ** Exact comparisons against ints *)

Lemma xcompare_int_l (a m e : Z) :
  xcompare (XFin a 0) (XFin m e) =
  Some (Z.compare (a * 2 ^ (- Z.min 0 e)) (m * 2 ^ (e - Z.min 0 e))).
Proof. unfold xcompare. do 3 f_equal. Qed.

Lemma xcompare_int_r (a m e : Z) :
  xcompare (XFin m e) (XFin a 0) =
  Some (Z.compare (m * 2 ^ (e - Z.min 0 e)) (a * 2 ^ (- Z.min 0 e))).
Proof. unfold xcompare. rewrite (Z.min_comm e 0). do 3 f_equal. Qed.

(** A number that lies between two ints orders them. *)
Lemma le_int_between (a b : Z) (w : num) :
  le (Int a) w = true -> le w (Int b) = true -> a <= b.
Proof.
  unfold le, compare. cbn [nval].
  destruct (nval w) as [| s | m e].
  - discriminate.
  - destruct s; cbn; discriminate.
  - rewrite xcompare_int_l, xcompare_int_r.
    assert (0 < 2 ^ (- Z.min 0 e)) as HK by (apply Z.pow_pos_nonneg; lia).
    set (K := 2 ^ (- Z.min 0 e)) in *. set (X := m * 2 ^ (e - Z.min 0 e)).
    destruct (Z.compare_spec (a * K) X); destruct (Z.compare_spec X (b * K));
      try discriminate; intros _ _; nia.
Qed.

Lemma lt_int_between (a b : Z) (w : num) :
  lt (Int a) w = true -> le w (Int b) = true -> a < b.
Proof.
  unfold lt, le, compare. cbn [nval].
  destruct (nval w) as [| s | m e].
  - discriminate.
  - destruct s; cbn; discriminate.
  - rewrite xcompare_int_l, xcompare_int_r.
    assert (0 < 2 ^ (- Z.min 0 e)) as HK by (apply Z.pow_pos_nonneg; lia).
    set (K := 2 ^ (- Z.min 0 e)) in *. set (X := m * 2 ^ (e - Z.min 0 e)).
    destruct (Z.compare_spec (a * K) X); destruct (Z.compare_spec X (b * K));
      try discriminate; intros _ _; nia.
Qed.

Lemma andb_false_of (a b : bool) : (a = true -> b = true -> False) -> a && b = false.
Proof. destruct a, b; intros H; try reflexivity. exfalso; auto. Qed.

(** ** Strings *)

Lemma split_cons (c : ascii) (s' : string) :
  split (String c s') =
  if isspace c then split s'
  else
    match s' with
    | EmptyString => [String c EmptyString]
    | String c' _ =>
        if isspace c' then String c EmptyString :: split s'
        else
          match split s' with
          | w :: ws => String c w :: ws
          | [] => [String c EmptyString]
          end
    end.
Proof. reflexivity. Qed.

(** There are no more words than characters. *)
Lemma split_length (s : string) : (List.length (split s) <= String.length s)%nat.
Proof.
  induction s as [| c s' IH]; [cbn; lia |].
  rewrite split_cons. cbn [String.length].
  destruct (isspace c); [lia |].
  destruct s' as [| c' s'']; [cbn; lia |].
  destruct (isspace c'); [cbn [List.length]; lia |].
  destruct (split (String c' s'')) as [| w ws]; cbn [List.length] in *; lia.
Qed.

Lemma isspace_lower_char (c : ascii) : isspace (lower_char c) = isspace c.
Proof. destruct c as [[] [] [] [] [] [] [] []]; reflexivity. Qed.

Lemma lower_length (s : string) : String.length (lower s) = String.length s.
Proof. induction s as [| c s' IH]; cbn; [reflexivity | now rewrite IH]. Qed.

(** Lower-casing moves no word boundary. *)
Lemma split_lower (s : string) : split (lower s) = List.map lower (split s).
Proof.
  induction s as [| c s' IH]; [reflexivity |].
  cbn [lower]. rewrite !split_cons, isspace_lower_char.
  destruct (isspace c); [exact IH |].
  destruct s' as [| c' s'']; [reflexivity |].
  cbn [lower] in *. rewrite isspace_lower_char.
  destruct (isspace c'); [cbn [List.map]; now rewrite IH |].
  rewrite IH.
  destruct (split (String c' s'')) as [| w ws]; reflexivity.
Qed.

Lemma split_lower_len (s : string) : len (split (lower s)) = len (split s).
Proof. unfold len. now rewrite split_lower, length_map. Qed.

Lemma len_split_bounds (s : string) :
  0 <= len (split s) <= Z.of_nat (String.length s).
Proof. unfold len. pose proof (split_length s). lia. Qed.

Lemma len_nil_inv {A} (l : list A) : len l = 0 -> l = [].
Proof. destruct l; [reflexivity | unfold len; cbn; lia]. Qed.

(** An occurrence uses up at least one character. *)
Lemma count_from_le (sub : string) (k : nat) (s : string) :
  sub <> EmptyString -> (count_from sub k s <= String.length s)%nat.
Proof.
  intros Hsub. revert k.
  induction s as [| c s' IH]; intros k; cbn [count_from String.length].
  - destruct sub; [congruence | lia].
  - destruct k as [| k].
    + destruct (String.prefix sub (String c s')).
      * specialize (IH (Nat.pred (String.length sub))). lia.
      * specialize (IH 0%nat). lia.
    + specialize (IH k). lia.
Qed.

Lemma count_le (s sub : string) :
  sub <> EmptyString -> 0 <= Z.of_nat (count s sub) <= Z.of_nat (String.length s).
Proof. intros H. pose proof (count_from_le sub 0 s H). unfold count. lia. Qed.

(** ** Sets *)

Lemma size_list_to_set_le (l : list string) :
  (size (list_to_set l : gset string) <= List.length l)%nat.
Proof.
  induction l as [| x l IH]; [cbn; rewrite size_empty; lia |].
  cbn [list_to_set List.length].
  rewrite size_union_alt, size_singleton.
  assert ((list_to_set l : gset string) ∖ {[x]} ⊆ list_to_set l) as Hsub
    by (apply subseteq_difference_l; reflexivity).
  apply subseteq_size in Hsub. lia.
Qed.

(** ** The monad *)

Lemma bind_Ok {A B} (a : A) (f : A -> py B) : (Ok a ≫= f) = f a.
Proof. reflexivity. Qed.

Lemma bind_Raise {A B} (e : exn) (f : A -> py B) : (Raise e ≫= f) = Raise e.
Proof. reflexivity. Qed.

Lemma truediv_ints (a b : Z) :
  truediv (Int a) (Int b) = (int_truediv a b ≫= fun q => Ok (Float q)).
Proof. reflexivity. Qed.

Lemma mul_float_int (f : float) (z : Z) (g : float) :
  to_float (Int z) = Ok g ->
  mul (Float f) (Int z) = Ok (Float (SFmul prec emax f g)).
Proof. intros H. unfold mul. cbn [to_float]. rewrite bind_Ok. cbn [to_float] in H. now rewrite H. Qed.

Lemma get_VDict (d : gmap string value) (key : string) (default : value) :
  get (VDict d) key default =
  Ok (match d !! key with Some v => v | None => default end).
Proof. unfold get. destruct (d !! key); reflexivity. Qed.

Lemma format_f_float (nd : nat) (f : float) :
  format_f nd (Float f) = Ok (float_format nd f).
Proof. reflexivity. Qed.

End PyFacts.

(* ===================================================================== *)
(** * Facts about the scorers                                              *)
(* ===================================================================== *)

Module ScorerFacts.
Import Py PyFacts Scorer.

Lemma to_float_10 : to_float (Int 10) = Ok (float_of_Z 10).
Proof. reflexivity. Qed.

Lemma to_float_60 : to_float (Int 60) = Ok (float_of_Z 60).
Proof. reflexivity. Qed.

Lemma to_float_100 : to_float (Int 100) = Ok (float_of_Z 100).
Proof. reflexivity. Qed.

Lemma str_fits_words (t : string) :
  str_fits t -> Z.abs (len (split t)) < 2 ^ 1023.
Proof.
  unfold str_fits, PY_SSIZE_T_MAX. intros H.
  pose proof (len_split_bounds t).
  assert (2 ^ 63 < 2 ^ 1023) by (apply Z.pow_lt_mono_r; lia).
  lia.
Qed.

(** ** Speech rate *)

(** The words-per-minute value the function computes from the quotient. *)
Definition wpm_of (q : float) : float := SFmul prec emax q (float_of_Z 60).

Lemma evaluate_speech_rate_eq (t : string) (d : Z) (q : float) :
  int_truediv (len (split t)) d = Ok q ->
  evaluate_speech_rate t d =
  Ok {| Speech.score := fst (speech_band (Float (wpm_of q)) (float_format 1 (wpm_of q)));
        Speech.wpm := round (Float (wpm_of q)) 1;
        Speech.feedback := snd (speech_band (Float (wpm_of q)) (float_format 1 (wpm_of q))) |}.
Proof.
  intros Hq. unfold evaluate_speech_rate.
  rewrite truediv_ints, Hq, !bind_Ok.
  rewrite (mul_float_int _ _ _ to_float_60), bind_Ok, format_f_float, bind_Ok.
  fold (wpm_of q).
  destruct (speech_band (Float (wpm_of q)) (float_format 1 (wpm_of q))); reflexivity.
Qed.

Lemma evaluate_speech_rate_zero_duration (t : string) :
  evaluate_speech_rate t 0 = Raise ZeroDivisionError.
Proof. reflexivity. Qed.

Lemma speech_band_range (wpm : num) (shown : string) :
  let s := fst (speech_band wpm shown) in s = 2 \/ s = 6 \/ s = 10.
Proof.
  unfold speech_band.
  destruct (le (Int 111) wpm && le wpm (Int 140)); [cbn; auto |].
  destruct (le (Int 141) wpm && le wpm (Int 160) || le (Int 81) wpm && le wpm (Int 110));
    [cbn; auto |].
  destruct (gt wpm (Int 160)); cbn; auto.
Qed.

(** What the ladder of [evaluate_speech_rate] does, band by band: the
    first three bands exclude one another, and the last [else] takes every
    rate that is in none of them. *)
Lemma speech_band_cases (wpm : num) (shown : string) :
  let ideal := le (Int 111) wpm && le wpm (Int 140) in
  let acceptable :=
    (le (Int 141) wpm && le wpm (Int 160)) || (le (Int 81) wpm && le wpm (Int 110)) in
  let fast := gt wpm (Int 160) in
  (fst (speech_band wpm shown) = 10 <-> ideal = true) /\
  (fst (speech_band wpm shown) = 6 <-> acceptable = true) /\
  (speech_band wpm shown = (2, "Too fast: " ++ shown ++ " WPM") <-> fast = true) /\
  (speech_band wpm shown = (2, "Too slow: " ++ shown ++ " WPM") <->
   ideal = false /\ acceptable = false /\ fast = false).
Proof.
  cbv zeta.
  assert (le (Int 141) wpm && le wpm (Int 160) || le (Int 81) wpm && le wpm (Int 110) = true ->
          le (Int 111) wpm && le wpm (Int 140) = false) as Hexcl1.
  { intros H. apply andb_false_of. intros H1 H2.
    apply orb_true_iff in H as [H | H]; apply andb_true_iff in H as [H3 H4].
    - pose proof (le_int_between _ _ _ H3 H2). lia.
    - pose proof (le_int_between _ _ _ H1 H4). lia. }
  assert (gt wpm (Int 160) = true ->
          le (Int 111) wpm && le wpm (Int 140) = false /\
          le (Int 141) wpm && le wpm (Int 160) || le (Int 81) wpm && le wpm (Int 110) = false)
    as Hexcl2.
  { unfold gt. intros H. split; [| apply orb_false_iff; split]; apply andb_false_of;
      intros H1 H2; pose proof (lt_int_between _ _ _ H H2); lia. }
  unfold speech_band.
  destruct (le (Int 111) wpm && le wpm (Int 140)) eqn:E1.
  - cbn [fst]. repeat split; try discriminate; try reflexivity.
    + intros H. specialize (Hexcl1 H). discriminate.
    + intros H. destruct (Hexcl2 H). discriminate.
    + intros [? _]. discriminate.
  - destruct (le (Int 141) wpm && le wpm (Int 160) || le (Int 81) wpm && le wpm (Int 110)) eqn:E2.
    + cbn [fst]. repeat split; try discriminate; try reflexivity.
      * intros H. destruct (Hexcl2 H). discriminate.
      * intros (_ & ? & _). discriminate.
    + destruct (gt wpm (Int 160)) eqn:E3; cbn [fst].
      * repeat split; try discriminate; try reflexivity.
        intros (_ & _ & ?). discriminate.
      * repeat split; try discriminate; try reflexivity.
Qed.

(** The last [else] is not "below 81": a rate strictly between two bands
    reaches it as well. *)
Lemma speech_band_gap :
  let wpm := Float (nearest_ratio false 221 2) in          (* 110.5 *)
  le (Int 81) wpm = true /\
  speech_band wpm "110.5" = (2, "Too slow: 110.5 WPM").
Proof. vm_compute. split; reflexivity. Qed.

Lemma evaluate_speech_rate_ok (t : string) (d : Z) :
  d <> 0 -> str_fits t ->
  exists r, evaluate_speech_rate t d = Ok r /\
            (Speech.score r = 2 \/ Speech.score r = 6 \/ Speech.score r = 10).
Proof.
  intros Hd Ht.
  destruct (int_truediv_ok (len (split t)) d (str_fits_words t Ht) Hd) as [q Hq].
  eexists. split; [apply (evaluate_speech_rate_eq t d q Hq) |].
  cbn [Speech.score]. apply speech_band_range.
Qed.

(** ** Vocabulary *)

Definition vocab_total (t : string) : Z := len (split (lower t)).
Definition vocab_unique (t : string) : Z :=
  Z.of_nat (size (list_to_set (split (lower t)) : gset string)).

Lemma vocab_unique_bounds (t : string) : 0 <= vocab_unique t <= vocab_total t.
Proof.
  unfold vocab_unique, vocab_total, len.
  pose proof (size_list_to_set_le (split (lower t))). lia.
Qed.

Lemma vocab_total_bounds (t : string) :
  0 <= vocab_total t <= Z.of_nat (String.length t).
Proof.
  unfold vocab_total. rewrite split_lower_len. apply len_split_bounds.
Qed.

Lemma evaluate_vocabulary_nowords (t : string) :
  vocab_total t = 0 ->
  evaluate_vocabulary t =
  Ok {| Vocabulary.score := 0; Vocabulary.ttr := Int 0;
        Vocabulary.unique_words := None; Vocabulary.total_words := None;
        Vocabulary.feedback := "No words found" |}.
Proof.
  unfold vocab_total, evaluate_vocabulary. cbv zeta. intros ->. reflexivity.
Qed.

Lemma evaluate_vocabulary_words (t : string) (q : float) :
  vocab_total t <> 0 ->
  int_truediv (vocab_unique t) (vocab_total t) = Ok q ->
  evaluate_vocabulary t =
  Ok {| Vocabulary.score := ratio_band (Float q);
        Vocabulary.ttr := round (Float q) 3;
        Vocabulary.unique_words := Some (vocab_unique t);
        Vocabulary.total_words := Some (vocab_total t);
        Vocabulary.feedback :=
          "TTR: " ++ float_format 3 q ++ " (" ++ str_of_Z (vocab_unique t) ++ "/" ++
          str_of_Z (vocab_total t) ++ " unique words)" |}.
Proof.
  unfold evaluate_vocabulary. cbv zeta.
  fold (vocab_total t). fold (vocab_unique t).
  intros Hn Hq. apply Z.eqb_neq in Hn. rewrite Hn.
  rewrite truediv_ints, Hq, !bind_Ok, format_f_float, bind_Ok. reflexivity.
Qed.

Lemma ratio_band_range (x : num) :
  let s := ratio_band x in s = 2 \/ s = 4 \/ s = 6 \/ s = 8 \/ s = 10.
Proof.
  unfold ratio_band.
  repeat match goal with
         | |- context [if ?c then _ else _] => destruct c
         end; cbn; auto 10.
Qed.

Lemma str_fits_unique (t : string) :
  str_fits t -> Z.abs (vocab_unique t) < 2 ^ 1023.
Proof.
  unfold str_fits, PY_SSIZE_T_MAX. intros H.
  pose proof (vocab_unique_bounds t). pose proof (vocab_total_bounds t).
  assert (2 ^ 63 < 2 ^ 1023) by (apply Z.pow_lt_mono_r; lia).
  lia.
Qed.

Lemma evaluate_vocabulary_ok (t : string) :
  str_fits t ->
  exists r, evaluate_vocabulary t = Ok r /\ 0 <= Vocabulary.score r <= 10.
Proof.
  intros Ht.
  destruct (Z.eq_dec (vocab_total t) 0) as [H0 | Hn].
  - eexists. split; [apply (evaluate_vocabulary_nowords t H0) |]. cbn. lia.
  - destruct (int_truediv_ok (vocab_unique t) (vocab_total t) (str_fits_unique t Ht) Hn)
      as [q Hq].
    eexists. split; [apply (evaluate_vocabulary_words t q Hn Hq) |].
    cbn [Vocabulary.score]. pose proof (ratio_band_range (Float q)). cbv zeta in *. lia.
Qed.

(** ** Clarity *)

Lemma count_fillers_bounds (text : string) :
  0 <= count_fillers text <= 15 * Z.of_nat (String.length text).
Proof.
  unfold count_fillers, FILLER_WORDS. cbn [List.map fold_left].
  repeat match goal with
         | |- context [Z.of_nat (count text ?f)] =>
             let H := fresh "H" in
             pose proof (count_le text f ltac:(discriminate)) as H;
             generalize dependent (Z.of_nat (count text f)); intros
         end.
  lia.
Qed.

Lemma clarity_band_range (x : num) :
  let s := clarity_band x in s = 3 \/ s = 6 \/ s = 9 \/ s = 12 \/ s = 15.
Proof.
  unfold clarity_band.
  repeat match goal with
         | |- context [if ?c then _ else _] => destruct c
         end; cbn; auto 10.
Qed.

Lemma evaluate_clarity_nowords (t : string) :
  len (split t) = 0 ->
  evaluate_clarity t =
  Ok {| Clarity.score := 15;
        Clarity.filler_count := count_fillers (lower t);
        Clarity.filler_rate := Int 0;
        Clarity.feedback :=
          str_of_Z (count_fillers (lower t)) ++ " filler words found (0.0% rate)" |}.
Proof.
  unfold evaluate_clarity. cbv zeta. intros ->. reflexivity.
Qed.

Lemma evaluate_clarity_words (t : string) (q : float) :
  0 < len (split t) ->
  int_truediv (count_fillers (lower t)) (len (split t)) = Ok q ->
  let rate := Float (SFmul prec emax q (float_of_Z 100)) in
  evaluate_clarity t =
  Ok {| Clarity.score := clarity_band rate;
        Clarity.filler_count := count_fillers (lower t);
        Clarity.filler_rate := round rate 2;
        Clarity.feedback :=
          str_of_Z (count_fillers (lower t)) ++ " filler words found (" ++
          float_format 1 (SFmul prec emax q (float_of_Z 100)) ++ "% rate)" |}.
Proof.
  intros Hwc Hq. unfold evaluate_clarity. cbv zeta.
  apply Z.ltb_lt in Hwc. rewrite Hwc.
  rewrite truediv_ints, Hq, !bind_Ok.
  rewrite (mul_float_int _ _ _ to_float_100), bind_Ok, format_f_float, bind_Ok.
  reflexivity.
Qed.

Lemma evaluate_clarity_ok (t : string) :
  str_fits t ->
  exists r, evaluate_clarity t = Ok r /\ 0 <= Clarity.score r <= 15.
Proof.
  intros Ht.
  pose proof (len_split_bounds t) as Hwc.
  destruct (Z.eq_dec (len (split t)) 0) as [H0 | Hn].
  - eexists. split; [apply (evaluate_clarity_nowords t H0) |]. cbn. lia.
  - assert (Z.abs (count_fillers (lower t)) < 2 ^ 1023) as Hfc.
    { pose proof (count_fillers_bounds (lower t)) as Hb.
      rewrite lower_length in Hb.
      unfold str_fits, PY_SSIZE_T_MAX in Ht.
      assert (2 ^ 67 < 2 ^ 1023) by (apply Z.pow_lt_mono_r; lia).
      change (2 ^ 63) with 9223372036854775808 in Ht.
      change (2 ^ 67) with 147573952589676412928 in *. lia. }
    destruct (int_truediv_ok _ _ Hfc Hn) as [q Hq].
    eexists. split; [apply (evaluate_clarity_words t q ltac:(lia) Hq) |].
    cbn [Clarity.score].
    pose proof (clarity_band_range (Float (SFmul prec emax q (float_of_Z 100)))).
    cbv zeta in *. lia.
Qed.

(** ** Engagement *)

Lemma engagement_band_range (x : num) :
  let s := engagement_band x in s = 3 \/ s = 6 \/ s = 9 \/ s = 12 \/ s = 15.
Proof.
  unfold engagement_band.
  repeat match goal with
         | |- context [if ?c then _ else _] => destruct c
         end; cbn; auto 10.
Qed.

Lemma evaluate_engagement_eq (polarity_scores : string -> polarity) (t : string) :
  evaluate_engagement polarity_scores t =
  Ok {| Engagement.score := engagement_band (Float (pos (polarity_scores t)));
        Engagement.positive_score := round (Float (pos (polarity_scores t))) 3;
        Engagement.sentiment := polarity_scores t;
        Engagement.feedback :=
          "Positive sentiment: " ++ float_format 3 (pos (polarity_scores t)) |}.
Proof. reflexivity. Qed.

(** ** The percentage *)

(** [round((total_score / 100) * 100, 2)] *)
Definition percentage_of (total_score : Z) : py num :=
  frac ← truediv (Int total_score) (Int 100);
  pct ← mul frac (Int 100);
  mret (round pct 2).

Definition percentage_exact (n : Z) : bool :=
  match percentage_of n with
  | Ok p => eq p (Int n)
  | Raise _ => false
  end.

Lemma percentage_exact_upto_100 :
  forallb percentage_exact (List.map Z.of_nat (seq 0 101)) = true.
Proof. vm_compute. reflexivity. Qed.

(** On a score between 0 and 100 the two roundings of the division and
    of the product are undone by [round(_, 2)]. *)
Lemma percentage_of_score (n : Z) :
  0 <= n <= 100 -> exists p, percentage_of n = Ok p /\ eq p (Int n) = true.
Proof.
  intros Hn.
  pose proof percentage_exact_upto_100 as Hall.
  rewrite forallb_forall in Hall.
  specialize (Hall n).
  assert (In n (List.map Z.of_nat (seq 0 101))) as Hin.
  { apply in_map_iff. exists (Z.to_nat n). split; [lia | apply in_seq; lia]. }
  specialize (Hall Hin). unfold percentage_exact in Hall.
  destruct (percentage_of n) as [p | e]; [eauto | discriminate].
Qed.

(** ** Salutation *)

Lemma evaluate_salutation_range (t : string) :
  let s := Salutation.score (evaluate_salutation t) in
  s = 0 \/ s = 2 \/ s = 4 \/ s = 5.
Proof.
  unfold evaluate_salutation. cbv zeta.
  repeat match goal with
         | |- context [if ?c then _ else _] => destruct c
         end; cbn; auto.
Qed.

(** ** Keywords *)

(** A category is hit when one of its trigger phrases occurs. *)
Definition hit (text : string) (item : string * list string) : bool :=
  any_in (snd item) text.

Definition miss (text : string) (item : string * list string) : bool :=
  negb (hit text item).

Lemma len_cons {A} (x : A) (l : list A) : len (x :: l) = 1 + len l.
Proof. unfold len. cbn [List.length]. lia. Qed.

Lemma len_nonneg {A} (l : list A) : 0 <= len l.
Proof. unfold len. lia. Qed.

Lemma len_filter_le {A} (f : A -> bool) (l : list A) : len (List.filter f l) <= len l.
Proof.
  induction l as [| x l IH]; [reflexivity |].
  cbn [List.filter]. destruct (f x); rewrite !len_cons; lia.
Qed.

Lemma must_have_loop_spec (items : list (string * list string)) (text : string) :
  forall (score : Z) (found missing : list string),
    must_have_loop items text (score, found, missing) =
    (score + 4 * len (List.filter (hit text) items),
     (found ++ List.map fst (List.filter (hit text) items))%list,
     (missing ++ List.map fst (List.filter (miss text) items))%list).
Proof.
  induction items as [| [category keywords] rest IH]; intros score found missing.
  - cbn. rewrite !app_nil_r. f_equal. f_equal. unfold len. cbn. lia.
  - cbn [must_have_loop List.filter].
    change (hit text (category, keywords)) with (any_in keywords text).
    change (miss text (category, keywords)) with (negb (any_in keywords text)).
    destruct (any_in keywords text); cbn [negb List.map fst]; rewrite IH;
      rewrite ?len_cons, <- app_assoc; cbn [app];
      repeat match goal with |- (_, _) = (_, _) => f_equal end;
      try reflexivity; lia.
Qed.

Lemma good_to_have_loop_spec (items : list (string * list string)) (text : string) :
  forall (good_count : Z) (found : list string),
    good_to_have_loop items text (good_count, found) =
    (good_count + len (List.filter (hit text) items),
     (found ++ List.map fst (List.filter (hit text) items))%list).
Proof.
  induction items as [| [category keywords] rest IH]; intros good_count found.
  - cbn. rewrite app_nil_r. f_equal. unfold len. cbn. lia.
  - cbn [good_to_have_loop List.filter].
    change (hit text (category, keywords)) with (any_in keywords text).
    destruct (any_in keywords text); cbn [List.map fst]; rewrite IH;
      rewrite ?len_cons, <- ?app_assoc; cbn [app];
      repeat match goal with |- (_, _) = (_, _) => f_equal end;
      try reflexivity; lia.
Qed.

Lemma evaluate_keyword_presence_eq (t : string) :
  let text := lower t in
  let required := List.filter (hit text) must_have in
  let optional := List.filter (hit text) good_to_have in
  Keywords.score (evaluate_keyword_presence t) =
    4 * len required + Z.min (len optional * 2) 10 /\
  Keywords.found (evaluate_keyword_presence t) =
    (List.map fst required ++ List.map fst optional)%list /\
  Keywords.missing (evaluate_keyword_presence t) =
    List.map fst (List.filter (miss text) must_have).
Proof.
  cbv zeta. unfold evaluate_keyword_presence.
  rewrite must_have_loop_spec, good_to_have_loop_spec.
  cbn [Keywords.score Keywords.found Keywords.missing app].
  repeat split; f_equal; lia.
Qed.

Lemma evaluate_keyword_presence_range (t : string) :
  0 <= Keywords.score (evaluate_keyword_presence t) <= 30.
Proof.
  destruct (evaluate_keyword_presence_eq t) as [-> _].
  pose proof (len_filter_le (hit (lower t)) must_have) as H1.
  pose proof (len_nonneg (List.filter (hit (lower t)) must_have)).
  pose proof (len_nonneg (List.filter (hit (lower t)) good_to_have)).
  change (len must_have) with 5 in H1. lia.
Qed.

(** ** Flow *)

Lemma evaluate_flow_range (t : string) :
  let s := Flow.score (evaluate_flow t) in
  s = 0 \/ s = 2 \/ s = 4 \/ s = 5.
Proof.
  unfold evaluate_flow. cbv zeta.
  repeat match goal with
         | |- context [if ?c then _ else _] => destruct c
         end; cbn; auto.
Qed.

Definition names_speaker (s : string) : bool := any_in name_words (lower s).

(** The index loop with its [break] visits the sentences from [k] on, at
    most [n] of them, and stops at the first that names the speaker. *)
Lemma name_loop_seq (sentences : list string) :
  forall (n k : nat),
    (k + n <= List.length sentences)%nat ->
    name_loop (seq k n) sentences =
    existsb names_speaker (firstn n (skipn k sentences)).
Proof.
  induction n as [| n IH]; intros k Hk; [reflexivity |].
  cbn [seq name_loop].
  destruct (lookup_lt_is_Some_2 sentences k ltac:(lia)) as [s Hs].
  rewrite Hs. rewrite (drop_S _ _ _ Hs). cbn [firstn existsb].
  fold (names_speaker s).
  destruct (names_speaker s); [reflexivity |].
  cbn [orb]. apply IH. lia.
Qed.

Lemma has_name_early_firstn (sentences : list string) :
  has_name_early sentences = existsb names_speaker (firstn 3 sentences).
Proof.
  unfold has_name_early.
  rewrite name_loop_seq by lia.
  change (skipn 0 sentences) with sentences.
  destruct (Nat.le_gt_cases 3 (List.length sentences)) as [H | H].
  - replace (Nat.min 3 (List.length sentences)) with 3%nat by lia. reflexivity.
  - replace (Nat.min 3 (List.length sentences)) with (List.length sentences) by lia.
    rewrite (firstn_all2 (n := List.length sentences)) by lia.
    rewrite (firstn_all2 (n := 3)) by lia. reflexivity.
Qed.

Lemma has_salutation_first_cases (sentences : list string) :
  has_salutation_first sentences =
  match sentences with
  | first_sentence :: _ :: _ => any_in flow_greetings (lower first_sentence)
  | _ => false
  end.
Proof.
  unfold has_salutation_first.
  destruct sentences as [| s1 [| s2 rest]]; try reflexivity.
  replace (2 <=? len (s1 :: s2 :: rest)) with true; [reflexivity |].
  symmetry. apply Z.leb_le. unfold len. cbn [List.length]. lia.
Qed.

Lemma last_default (l : list string) (d : string) :
  l <> [] -> last l = Some (List.last l d).
Proof.
  induction l as [| x l IH]; [congruence |]. intros _.
  destruct l as [| y l']; [reflexivity |].
  change (last (x :: y :: l')) with (last (y :: l')).
  change (List.last (x :: y :: l') d) with (List.last (y :: l') d).
  apply IH. discriminate.
Qed.

Lemma has_closing_last (sentences : list string) :
  has_closing sentences =
  match last sentences with
  | Some last_sentence => any_in closing_words (lower last_sentence)
  | None => false
  end.
Proof.
  destruct sentences as [| x l]; [reflexivity |].
  rewrite (last_default (x :: l) EmptyString) by discriminate. reflexivity.
Qed.

(** ** Lists of categories *)

Lemma map_fst_filter_sub (f : string * list string -> bool)
    (items : list (string * list string)) (c : string) :
  c ∈ List.map fst (List.filter f items) -> c ∈ List.map fst items.
Proof.
  rewrite !list_elem_of_In, !in_map_iff.
  intros [item [Hc Hin]]. apply filter_In in Hin as [Hin _]. eauto.
Qed.

Lemma filter_all (P : string -> Prop) `{!forall c, Decision (P c)} (l : list string) :
  (forall c, c ∈ l -> P c) -> filter P l = l.
Proof.
  induction l as [| x l IH]; intros Hall; [reflexivity |].
  rewrite filter_cons_True by (apply Hall; left).
  f_equal. apply IH. intros c Hc. apply Hall. now right.
Qed.

Lemma filter_none (P : string -> Prop) `{!forall c, Decision (P c)} (l : list string) :
  (forall c, c ∈ l -> ~ P c) -> filter P l = [].
Proof.
  induction l as [| x l IH]; intros Hnone; [reflexivity |].
  rewrite filter_cons_False by (apply Hnone; left).
  apply IH. intros c Hc. apply Hnone. now right.
Qed.

Lemma hit_miss_partition (text : string) (items : list (string * list string)) :
  (List.map fst (List.filter (hit text) items) ++
   List.map fst (List.filter (miss text) items))%list ≡ₚ List.map fst items.
Proof.
  induction items as [| item rest IH]; [reflexivity |].
  cbn [List.filter]. unfold miss at 1.
  destruct (hit text item); cbn [negb List.map].
  - cbn [app]. now apply perm_skip.
  - rewrite <- Permutation_middle. now apply perm_skip.
Qed.


Lemma percentage_steps (n : Z) :
  0 <= n <= 100 ->
  exists frac pct,
    truediv (Int n) (Int 100) = Ok frac /\
    mul frac (Int 100) = Ok pct /\
    eq (round pct 2) (Int n) = true.
Proof.
  intros Hn. destruct (percentage_of_score n Hn) as [p [Hp Heq]].
  unfold percentage_of in Hp.
  destruct (truediv (Int n) (Int 100)) as [frac | e] eqn:Hfrac; [| discriminate].
  rewrite bind_Ok in Hp.
  destruct (mul frac (Int 100)) as [pct | e] eqn:Hpct; [| discriminate].
  rewrite bind_Ok in Hp. change (Ok (round pct 2) = Ok p) in Hp.
  injection Hp as <-.
  exists frac, pct. split; [reflexivity | split; [exact Hpct | exact Heq]].
Qed.

End ScorerFacts.

(* ===================================================================== *)
(** * Properties of the scoring engine and of the endpoint                 *)
(* ===================================================================== *)

Import Py PyFacts Scorer ScorerFacts App.

(** Sample inputs used to instantiate the statements below. *)
Module Samples.

(** An analyzer that finds every transcript half positive. *)
Definition even_polarity (_ : string) : polarity :=
  {| neg := S754_zero false; neu := lit_0_5; pos := lit_0_5;
     compound := S754_zero false |}.

Definition short_intro : string :=
  "Hello everyone, my name is Asha. I am ten years old. Thank you.".

(** The transcript of the rubric's worked scenario. *)
Definition johns_intro : string :=
  "Hi, myself John. I am from Delhi. I enjoy playing football. Thank you for listening.".

(** [n] copies of the word ["word"], each followed by a space. *)
Fixpoint words_of (n : nat) : string :=
  match n with
  | O => EmptyString
  | S n' => "word " ++ words_of n'
  end.

(** Ten words, five of them distinct. *)
Definition ten_words : string := "a b c d e a b c d e".

(** Request bodies. *)
Definition body (transcript duration : value) : App.request :=
  App.Parsed (VDict (<["transcript" := transcript]> (<["duration" := duration]> ∅))).

End Samples.

(** ** The report *)

(** The invariant that the rubric asks of an evaluation report: the
    bounds, the sums, and the percentage. *)
Definition report_invariant (r : report) : Prop :=
  let cs := content_structure (cats r) in
  let sr := speech_rate (cats r) in
  let lg := language_grammar (cats r) in
  let cl := clarity (cats r) in
  let en := engagement (cats r) in
  (* every sub-score within its declared bound *)
  0 <= Salutation.score (ContentStructure.salutation cs) <= 5 /\
  0 <= Keywords.score (ContentStructure.keywords cs) <= 30 /\
  0 <= Flow.score (ContentStructure.flow cs) <= 5 /\
  0 <= Speech.score (SpeechRate.details sr) <= 10 /\
  0 <= Grammar.score (LanguageGrammar.grammar lg) <= 10 /\
  0 <= Vocabulary.score (LanguageGrammar.vocabulary lg) <= 10 /\
  0 <= Clarity.score (ClarityCat.details cl) <= 15 /\
  0 <= Engagement.score (EngagementCat.details en) <= 15 /\
  (* every category total within the maximum the report declares *)
  ContentStructure.max cs = 40 /\ 0 <= ContentStructure.score cs <= 40 /\
  SpeechRate.max sr = 10 /\ 0 <= SpeechRate.score sr <= 10 /\
  LanguageGrammar.max lg = 20 /\ 0 <= LanguageGrammar.score lg <= 20 /\
  ClarityCat.max cl = 15 /\ 0 <= ClarityCat.score cl <= 15 /\
  EngagementCat.max en = 15 /\ 0 <= EngagementCat.score en <= 15 /\
  (* the sums *)
  overall_score r =
    ContentStructure.score cs + SpeechRate.score sr + LanguageGrammar.score lg +
    ClarityCat.score cl + EngagementCat.score en /\
  0 <= overall_score r <= 100 /\
  ContentStructure.score cs =
    Salutation.score (ContentStructure.salutation cs) +
    Keywords.score (ContentStructure.keywords cs) +
    Flow.score (ContentStructure.flow cs) /\
  (* percentage == overall_score *)
  eq (percentage r) (Int (overall_score r)) = true.

(** C1.  No report is produced: for every transcript (that the interpreter
    can hold) and every positive duration the speech-rate scorer returns,
    and the call of [evaluate_grammar] that follows it in
    [evaluate_introduction] fails with the [IndentationError] of scorer.py
    line 144, so no sub-score, sum or percentage is returned. *)
Theorem C1_no_report
    (polarity_scores : string -> polarity) (transcript : string) (duration : Z) :
  0 < duration ->
  str_fits transcript ->
  (exists speech, evaluate_speech_rate transcript duration = Ok speech) /\
  evaluate_introduction polarity_scores transcript duration = Raise IndentationError /\
  (forall r, evaluate_introduction polarity_scores transcript duration <> Ok r).
Proof.
  intros Hd Ht.
  destruct (evaluate_speech_rate_ok transcript duration ltac:(lia) Ht) as [sp [Hsp _]].
  assert (evaluate_introduction polarity_scores transcript duration = Raise IndentationError)
    as H.
  { unfold evaluate_introduction. cbv zeta. rewrite Hsp, bind_Ok. reflexivity. }
  split; [exists sp; exact Hsp |].
  split; [exact H |].
  intros r Hr. rewrite H in Hr. discriminate Hr.
Qed.

Lemma C1_no_report_witness :
  (exists speech, evaluate_speech_rate Samples.short_intro 52 = Ok speech) /\
  evaluate_introduction Samples.even_polarity Samples.short_intro 52 =
    Raise IndentationError /\
  (forall r, evaluate_introduction Samples.even_polarity Samples.short_intro 52 <> Ok r).
Proof.
  apply (C1_no_report Samples.even_polarity Samples.short_intro 52).
  - lia.
  - unfold str_fits, PY_SSIZE_T_MAX. cbn. lia.
Defined.

(** ** Transcripts without words *)

(** The least score of each ladder (its last [else]; the early return of
    the vocabulary scorer). *)
Definition speech_min : Z := 2.
Definition clarity_min : Z := 3.
Definition vocabulary_min : Z := 0.

(** C2, as stated, fails on the empty transcript: it has no words, and
    the clarity scorer returns its highest score, 15, not its lowest, 3. *)
Lemma C2_counterexample :
  len (split "") = 0 /\
  (exists r, evaluate_clarity "" = Ok r /\
             Clarity.score r = 15 /\ Clarity.score r <> clarity_min).
Proof.
  split; [reflexivity |].
  eexists. split; [vm_compute; reflexivity |].
  cbn. split; [reflexivity | discriminate].
Qed.

(** C2, amended.  For every transcript with zero word count the
    speech-rate scorer (for a non-zero duration), the clarity scorer and
    the vocabulary scorer do not fail, and each reports a zero rate (wpm 0,
    filler_rate 0, ttr 0); the speech-rate and vocabulary scorers return
    their lowest scores (2 and 0), the clarity scorer its highest (15). *)
Theorem C2_zero_word_count (transcript : string) (duration : Z) :
  len (split transcript) = 0 ->
  duration <> 0 ->
  (exists r, evaluate_speech_rate transcript duration = Ok r /\
             Speech.score r = speech_min /\ eq (Speech.wpm r) (Int 0) = true) /\
  (exists r, evaluate_clarity transcript = Ok r /\
             Clarity.score r = 15 /\ Clarity.filler_rate r = Int 0) /\
  (exists r, evaluate_vocabulary transcript = Ok r /\
             Vocabulary.score r = vocabulary_min /\ Vocabulary.ttr r = Int 0).
Proof.
  intros Hwc Hd. repeat split.
  - assert (int_truediv (len (split transcript)) duration = Ok (S754_zero (duration <? 0)))
      as Hq by (rewrite Hwc; apply int_truediv_zero; exact Hd).
    eexists. split; [apply (evaluate_speech_rate_eq _ _ _ Hq) |].
    destruct (duration <? 0); split; reflexivity.
  - eexists. split; [apply (evaluate_clarity_nowords _ Hwc) |]. split; reflexivity.
  - eexists. split; [apply evaluate_vocabulary_nowords |]; [| split; reflexivity].
    unfold vocab_total. rewrite split_lower_len. exact Hwc.
Qed.

Lemma C2_zero_word_count_witness :
  (exists r, evaluate_speech_rate "   " 52 = Ok r /\
             Speech.score r = speech_min /\ eq (Speech.wpm r) (Int 0) = true) /\
  (exists r, evaluate_clarity "   " = Ok r /\
             Clarity.score r = 15 /\ Clarity.filler_rate r = Int 0) /\
  (exists r, evaluate_vocabulary "   " = Ok r /\
             Vocabulary.score r = vocabulary_min /\ Vocabulary.ttr r = Int 0).
Proof.
  apply (C2_zero_word_count "   " 52).
  - reflexivity.
  - discriminate.
Defined.

(** ** The worked scenario *)

(** C3, as stated, fails: on the scenario's transcript the first sentence
    contains ["hi"], which is in the greeting list of the flow scorer, so
    the salutation-first signal is true and the flow score is 5, not 2. *)
Lemma C3_counterexample :
  has_salutation_first (sentences_of Samples.johns_intro) = true /\
  Flow.score (evaluate_flow Samples.johns_intro) = 5 /\
  Flow.score (evaluate_flow Samples.johns_intro) <> 2.
Proof. vm_compute. repeat split; discriminate. Qed.

(** C3, amended.  On the scenario's transcript (duration 30) the salutation
    score is 2, the keyword categories found are name, hobbies and origin,
    and the flow score is 5: the salutation-first, name-early and closing
    signals are all true. *)
Theorem C3_scenario :
  let t := Samples.johns_intro in
  Salutation.score (evaluate_salutation t) = 2 /\
  Keywords.found (evaluate_keyword_presence t) = ["name"; "hobbies"; "origin"] /\
  has_salutation_first (sentences_of t) = true /\
  has_name_early (sentences_of t) = true /\
  has_closing (sentences_of t) = true /\
  Flow.score (evaluate_flow t) = 5 /\
  (exists r, evaluate_speech_rate t 30 = Ok r /\ Speech.score r = 2).
Proof.
  vm_compute. repeat split; try reflexivity.
  eexists. split; reflexivity.
Qed.

(** ** Grammar *)

(** C4.  [evaluate_grammar] reports nothing: for every transcript, whatever
    its word count, the call fails with the [IndentationError] of scorer.py
    line 144; no error count, no rate and no score is returned. *)
Theorem C4_grammar_never_returns (transcript : string) :
  evaluate_grammar transcript = Raise IndentationError /\
  (forall r, evaluate_grammar transcript <> Ok r).
Proof.
  split; [reflexivity |].
  intros r Hr. discriminate Hr.
Qed.

(** ** Flow *)






(** ** Keywords *)

(** The five required categories, in the order of the dict. *)
Definition required_categories : list string := List.map fst must_have.

Lemma required_categories_names :
  required_categories = ["name"; "age"; "school/class"; "family"; "hobbies"].
Proof. reflexivity. Qed.

Lemma required_categories_NoDup : NoDup required_categories.
Proof. apply (bool_decide_unpack _). vm_compute. exact I. Qed.

Lemma optional_not_required :
  Forall (fun c => c ∉ required_categories) (List.map fst good_to_have).
Proof. apply (bool_decide_unpack _). vm_compute. exact I. Qed.

(** C9.  For every transcript, the found list restricted to the required
    categories, together with the missing list, is a partition of the set
    of required categories: the two lists together are a rearrangement of
    the five names, without repetition, and no name is both found and
    missing. *)
Theorem C9_keyword_partition (transcript : string) :
  let r := evaluate_keyword_presence transcript in
  let found_required := filter (.∈ required_categories) (Keywords.found r) in
  (found_required ++ Keywords.missing r)%list ≡ₚ required_categories /\
  NoDup (found_required ++ Keywords.missing r)%list /\
  Keywords.found r ## Keywords.missing r.
Proof.
  cbv zeta.
  destruct (evaluate_keyword_presence_eq transcript) as (_ & Hfound & Hmissing).
  cbv zeta in Hfound, Hmissing. rewrite Hfound, Hmissing.
  set (text := lower transcript).
  assert (filter (.∈ required_categories)
            (List.map fst (List.filter (hit text) must_have) ++
             List.map fst (List.filter (hit text) good_to_have))%list
          = List.map fst (List.filter (hit text) must_have)) as Hrestrict.
  { rewrite filter_app, filter_all, filter_none; [apply app_nil_r | |].
    - intros c Hc. apply map_fst_filter_sub in Hc.
      pose proof optional_not_required as Hopt.
      rewrite Forall_forall in Hopt. now apply Hopt.
    - intros c Hc. now apply map_fst_filter_sub in Hc. }
  rewrite Hrestrict.
  pose proof (hit_miss_partition text must_have) as Hperm.
  fold required_categories in Hperm.
  assert (NoDup (List.map fst (List.filter (hit text) must_have) ++
                 List.map fst (List.filter (miss text) must_have))%list) as Hnodup.
  { rewrite Hperm. exact required_categories_NoDup. }
  split; [exact Hperm |]. split; [exact Hnodup |].
  intros c Hf Hm.
  apply NoDup_app in Hnodup as (_ & Hdisj & _).
  apply (Hdisj c); [| exact Hm].
  apply elem_of_app in Hf as [Hf | Hf]; [exact Hf | exfalso].
  apply map_fst_filter_sub in Hf. apply map_fst_filter_sub in Hm.
  pose proof optional_not_required as Hopt.
  rewrite Forall_forall in Hopt. now apply (Hopt c).
Qed.

(** ** Vocabulary *)

(** C10, as stated, fails on the empty transcript: the dict returned has
    neither a ['unique_words'] nor a ['total_words'] key. *)
Lemma C10_counterexample :
  exists r, evaluate_vocabulary "" = Ok r /\
            Vocabulary.unique_words r = None /\
            Vocabulary.total_words r = None.
Proof. eexists. split; [reflexivity |]. split; reflexivity. Qed.

(** C10, amended.  For every transcript, [evaluate_vocabulary] returns a
    result containing score, ttr and feedback; without words it is score
    0, ttr 0 and nothing else; otherwise it also contains unique_words and
    total_words, ttr is |distinct lowercase tokens| / |total tokens|
    (rounded to 3 decimals in the result), and the score is 10 if ttr >=
    0.9, 8 if >= 0.7, 6 if >= 0.5, 4 if >= 0.3, else 2.  In particular 10
    words with 5 distinct give ttr 0.5 and score 6. *)
Theorem C10_vocabulary (transcript : string) :
  str_fits transcript ->
  let total := vocab_total transcript in
  let unique := vocab_unique transcript in
  (exists r,
     evaluate_vocabulary transcript = Ok r /\
     if total =? 0
     then Vocabulary.score r = 0 /\ Vocabulary.ttr r = Int 0 /\
          Vocabulary.unique_words r = None /\ Vocabulary.total_words r = None /\
          Vocabulary.feedback r = "No words found"
     else exists ttr,
          int_truediv unique total = Ok ttr /\
          Vocabulary.ttr r = round (Float ttr) 3 /\
          Vocabulary.unique_words r = Some unique /\
          Vocabulary.total_words r = Some total /\
          Vocabulary.score r =
            (if ge (Float ttr) (Float lit_0_9) then 10
             else if ge (Float ttr) (Float lit_0_7) then 8
             else if ge (Float ttr) (Float lit_0_5) then 6
             else if ge (Float ttr) (Float lit_0_3) then 4
             else 2)) /\
  (total = 10 -> unique = 5 ->
   exists r,
     evaluate_vocabulary transcript = Ok r /\
     Vocabulary.ttr r = Float lit_0_5 /\ Vocabulary.score r = 6).
Proof.
  intros Ht. cbv zeta. split.
  - destruct (Z.eqb_spec (vocab_total transcript) 0) as [H0 | Hn].
    + eexists. split; [apply (evaluate_vocabulary_nowords _ H0) |].
      repeat split.
    + destruct (int_truediv_ok _ _ (str_fits_unique _ Ht) Hn) as [q Hq].
      eexists. split; [apply (evaluate_vocabulary_words _ q Hn Hq) |].
      exists q. repeat split. exact Hq.
  - intros Htotal Hunique.
    assert (int_truediv (vocab_unique transcript) (vocab_total transcript) = Ok lit_0_5) as Hq
      by (rewrite Htotal, Hunique; reflexivity).
    assert (vocab_total transcript <> 0) as Hn by lia.
    eexists. split; [apply (evaluate_vocabulary_words _ _ Hn Hq) |].
    split; reflexivity.
Qed.

Lemma C10_vocabulary_witness :
  exists r,
    evaluate_vocabulary Samples.ten_words = Ok r /\
    Vocabulary.ttr r = Float lit_0_5 /\ Vocabulary.score r = 6.
Proof.
  assert (str_fits Samples.ten_words) as Hfits
    by (unfold str_fits, PY_SSIZE_T_MAX; cbn; lia).
  destruct (C10_vocabulary Samples.ten_words Hfits) as [_ Hten].
  apply Hten; vm_compute; reflexivity.
Defined.

(** ** Speech rate *)


(** ** The endpoint *)

(** C6, as stated, fails: a request with duration -5 is not rejected, the
    scoring engine is called with -5 and the speech-rate scorer returns;
    with duration 0 the engine is called too, and the division in the
    speech-rate scorer raises. *)
Lemma C6_counterexample :
  before_scoring (Samples.body (VStr "hello there") (VInt (-5)))
    = Ok (Call "hello there" (-5)) /\
  (exists r, evaluate_speech_rate "hello there" (-5) = Ok r /\
             Speech.feedback r = "Too slow: -24.0 WPM") /\
  before_scoring (Samples.body (VStr "hello there") (VInt 0))
    = Ok (Call "hello there" 0) /\
  evaluate Samples.even_polarity (Samples.body (VStr "hello there") (VInt 0))
    = Json500 ZeroDivisionError.
Proof.
  split; [vm_compute; reflexivity |].
  split; [eexists; split; vm_compute; reflexivity |].
  split; vm_compute; reflexivity.
Qed.

(** C6, amended.  No duration is rejected for its sign.  The handler calls
    the scoring engine exactly when the body is a JSON object whose
    transcript is a string that is not blank and whose duration field (52
    when absent) is converted by [int()]; the duration that then reaches
    [evaluate_speech_rate] is that int, positive or not.  The wpm division
    is defined exactly when that duration is not 0: then the speech-rate
    scorer returns; at 0 it raises [ZeroDivisionError] and the handler
    answers with a server error. *)
Theorem C6_duration_unchecked (req : request) (transcript : string) (duration : Z) :
  (before_scoring req = Ok (Call transcript duration) <->
   exists d raw,
     req = Parsed (VDict d) /\
     d !! "transcript" = Some (VStr transcript) /\
     strip transcript <> EmptyString /\
     get (VDict d) "duration" (VInt 52) = Ok raw /\ int raw = Ok duration) /\
  (before_scoring req = Ok (Call transcript duration) ->
   duration = 0 ->
   evaluate_speech_rate transcript duration = Raise ZeroDivisionError /\
   forall polarity_scores, evaluate polarity_scores req = Json500 ZeroDivisionError) /\
  (duration <> 0 -> str_fits transcript ->
   exists r, evaluate_speech_rate transcript duration = Ok r).
Proof.
  split; [split |].
  - (* a call of the engine comes from such a body *)
    intros Hsteps.
    destruct req as [| data]; [discriminate |].
    destruct data as [| b | n | f | s | l | d]; try discriminate.
    unfold before_scoring in Hsteps.
    cbn [get_json] in Hsteps. rewrite bind_Ok, !get_VDict, !bind_Ok in Hsteps.
    destruct (int (match d !! "duration" with Some v => v | None => VInt 52 end))
      as [z | e] eqn:Hint; [| discriminate].
    rewrite bind_Ok in Hsteps.
    destruct (d !! "transcript") as [v |] eqn:Hv; [| discriminate].
    destruct v as [| b | n | f | s | l | m]; try discriminate.
    cbn [as_str] in Hsteps. rewrite bind_Ok in Hsteps.
    destruct (strip s) as [| c rest] eqn:Hstrip; [discriminate |].
    cbn [truthy negb] in Hsteps.
    change (Ok (Call s z) = Ok (Call transcript duration)) in Hsteps.
    injection Hsteps as -> ->.
    exists d, (match d !! "duration" with Some v => v | None => VInt 52 end).
    split; [reflexivity |]. split; [exact Hv |].
    split; [rewrite Hstrip; discriminate |].
    split; [apply get_VDict | exact Hint].
  - (* such a body reaches the engine, whatever the sign of the duration *)
    intros (d & raw & -> & Ht & Hne & Hraw & Hint).
    unfold before_scoring.
    rewrite get_VDict in Hraw. injection Hraw as <-.
    cbn [get_json]. rewrite bind_Ok, !get_VDict, !bind_Ok, Hint, bind_Ok.
    rewrite Ht. cbn [as_str]. rewrite bind_Ok.
    destruct (strip transcript) as [| c rest]; [congruence | reflexivity].
  - split.
    + intros Hcall ->. split; [reflexivity |].
      intros polarity_scores. unfold evaluate. rewrite Hcall.
      unfold evaluate_introduction. cbv zeta.
      rewrite evaluate_speech_rate_zero_duration. reflexivity.
    + intros Hd Ht.
      destruct (evaluate_speech_rate_ok transcript duration Hd Ht) as [r [Hr _]].
      eauto.
Qed.

(** The engine is called with the duration -5 of the body, and the
    speech-rate scorer returns on it. *)
Lemma C6_duration_unchecked_witness :
  before_scoring (Samples.body (VStr "hello there") (VInt (-5)))
    = Ok (Call "hello there" (-5)) /\
  exists r, evaluate_speech_rate "hello there" (-5) = Ok r.
Proof.
  pose proof (C6_duration_unchecked (Samples.body (VStr "hello there") (VInt (-5)))
                "hello there" (-5)) as [[_ Hcall] [_ Hret]].
  split.
  - apply Hcall.
    exists (<["transcript" := VStr "hello there"]> (<["duration" := VInt (-5)]> ∅)),
           (VInt (-5)).
    split; [reflexivity |]. split; [vm_compute; reflexivity |].
    split; [vm_compute; discriminate |].
    split; vm_compute; reflexivity.
  - apply Hret.
    + lia.
    + unfold str_fits, PY_SSIZE_T_MAX. cbn. lia.
Defined.

(** A transcript field that is absent, empty or made of whitespace. *)
Definition blank_transcript (d : gmap string value) : Prop :=
  d !! "transcript" = None \/
  exists s, d !! "transcript" = Some (VStr s) /\ strip s = EmptyString.

(** A duration field that is absent or that [int()] accepts. *)
Definition duration_accepted (d : gmap string value) : Prop :=
  match d !! "duration" with
  | None => True
  | Some raw => exists z, int raw = Ok z
  end.

(** C8, as stated, fails: the duration is converted before the transcript
    is looked at, so an empty transcript sent with a duration that [int()]
    rejects is answered with a server error, not with the client error. *)
Lemma C8_counterexample :
  evaluate Samples.even_polarity (Samples.body (VStr "") (VStr "abc"))
    = Json500 ValueError /\
  evaluate Samples.even_polarity (Samples.body (VStr "") (VStr "abc"))
    <> Json400 "Transcript cannot be empty".
Proof. split; [vm_compute; reflexivity | vm_compute; discriminate]. Qed.

(** C8, amended.  For every request whose body is a JSON object, whose
    transcript is empty, whitespace-only or missing, and whose duration is
    missing or accepted by [int()], the endpoint returns a client-error
    response with message "Transcript cannot be empty" and no scorer is
    invoked (the handler answers before the call of the scoring engine). *)
Theorem C8_blank_transcript_rejected
    (polarity_scores : string -> polarity) (d : gmap string value) :
  blank_transcript d ->
  duration_accepted d ->
  before_scoring (Parsed (VDict d)) = Ok (Answer (Json400 "Transcript cannot be empty")) /\
  evaluate polarity_scores (Parsed (VDict d)) = Json400 "Transcript cannot be empty".
Proof.
  intros Hblank Hdur.
  assert (before_scoring (Parsed (VDict d))
          = Ok (Answer (Json400 "Transcript cannot be empty"))) as Hsteps.
  { unfold before_scoring, duration_accepted in *.
    cbn [get_json]. rewrite bind_Ok, !get_VDict, !bind_Ok.
    assert (exists z, int (match d !! "duration" with
                           | Some v => v
                           | None => VInt 52
                           end) = Ok z) as [z Hz].
    { destruct (d !! "duration"); [exact Hdur | exists 52; reflexivity]. }
    rewrite Hz, bind_Ok.
    destruct Hblank as [Hnone | (s & Hs & Hstrip)].
    - rewrite Hnone. reflexivity.
    - rewrite Hs. cbn [as_str]. rewrite bind_Ok, Hstrip. reflexivity. }
  split; [exact Hsteps |].
  unfold evaluate. rewrite Hsteps. reflexivity.
Qed.

Lemma C8_blank_transcript_rejected_witness :
  before_scoring (Samples.body (VStr "   ") (VStr "30"))
    = Ok (Answer (Json400 "Transcript cannot be empty")) /\
  evaluate Samples.even_polarity (Samples.body (VStr "   ") (VStr "30"))
    = Json400 "Transcript cannot be empty".
Proof.
  apply (C8_blank_transcript_rejected Samples.even_polarity
           (<["transcript" := VStr "   "]> (<["duration" := VStr "30"]> ∅))).
  - right. exists "   ". split; vm_compute; reflexivity.
  - unfold duration_accepted.
    replace ((<["transcript" := VStr "   "]> (<["duration" := VStr "30"]> ∅) : gmap string value)
             !! "duration") with (Some (VStr "30")) by (vm_compute; reflexivity).
    exists 30. reflexivity.
Defined.

(* ===================================================================== *)
(** * Further properties                                                   *)
(* ===================================================================== *)

(** ** Facts about text *)

Module TextFacts.

Lemma lower_char_idem (c : ascii) : lower_char (lower_char c) = lower_char c.
Proof. destruct c as [[] [] [] [] [] [] [] []]; reflexivity. Qed.

Lemma lower_idem (s : string) : lower (lower s) = lower s.
Proof. induction s as [| c s IH]; cbn; [reflexivity | now rewrite lower_char_idem, IH]. Qed.

Lemma append_String (c : ascii) (s t : string) : String c s ++ t = String c (s ++ t).
Proof. reflexivity. Qed.

Lemma append_Empty (t : string) : EmptyString ++ t = t.
Proof. reflexivity. Qed.

Lemma lower_app (s t : string) : lower (s ++ t) = lower s ++ lower t.
Proof.
  induction s as [| c s IH]; [reflexivity |].
  cbn [lower]. rewrite !append_String. cbn [lower]. now rewrite IH.
Qed.

Lemma prefix_app (sub s t : string) :
  String.prefix sub s = true -> String.prefix sub (s ++ t) = true.
Proof.
  revert sub. induction s as [| b s IH]; intros sub H.
  - destruct sub; [destruct t; reflexivity | discriminate].
  - destruct sub as [| a sub]; [reflexivity |].
    rewrite append_String. cbn [String.prefix] in *.
    destruct (ascii_dec a b); [now apply IH | discriminate].
Qed.

Lemma contains_cons (sub : string) (c : ascii) (s : string) :
  contains sub (String c s) = String.prefix sub (String c s) || contains sub s.
Proof. reflexivity. Qed.

Lemma contains_nil (sub : string) :
  contains sub EmptyString = String.prefix sub EmptyString.
Proof. cbn. now rewrite orb_false_r. Qed.

(** An occurrence survives when text is added after or before. *)
Lemma contains_app_l (sub s t : string) :
  contains sub s = true -> contains sub (s ++ t) = true.
Proof.
  induction s as [| c s IH]; intros H.
  - rewrite contains_nil in H. apply (prefix_app _ _ t) in H. rewrite append_Empty in *.
    destruct t; [now rewrite contains_nil | rewrite contains_cons, H; reflexivity].
  - rewrite append_String. rewrite contains_cons in *.
    apply orb_true_iff in H as [H | H].
    + apply (prefix_app _ _ t) in H. rewrite append_String in H. now rewrite H.
    + rewrite (IH H). apply orb_true_r.
Qed.

Lemma contains_app_r (sub s t : string) :
  contains sub t = true -> contains sub (s ++ t) = true.
Proof.
  intros H. induction s as [| c s IH]; [exact H |].
  rewrite append_String, contains_cons, IH. apply orb_true_r.
Qed.

(** ** Blank strings *)

Fixpoint all_space (s : string) : bool :=
  match s with
  | EmptyString => true
  | String c s' => isspace c && all_space s'
  end.

Lemma split_nil_iff (s : string) : split s = [] <-> all_space s = true.
Proof.
  induction s as [| c s IH]; [cbn; tauto |].
  rewrite split_cons. cbn [all_space].
  destruct (isspace c); cbn [andb]; [exact IH |].
  split; [| discriminate].
  destruct s as [| c' s']; [discriminate |].
  destruct (isspace c'); [discriminate |].
  destruct (split (String c' s')); discriminate.
Qed.

Lemma lstrip_all_space (s : string) : all_space (lstrip s) = all_space s.
Proof.
  induction s as [| c s IH]; [reflexivity |].
  cbn [lstrip all_space]. destruct (isspace c) eqn:E; [exact IH |].
  cbn [all_space]. now rewrite E.
Qed.

Lemma rstrip_empty_iff (s : string) : rstrip s = EmptyString <-> all_space s = true.
Proof.
  induction s as [| c s IH]; [cbn; tauto |].
  cbn [rstrip all_space].
  destruct (rstrip s) as [| r rs] eqn:E.
  - destruct (isspace c); cbn [andb].
    + split; [intros _; now apply IH | reflexivity].
    + split; discriminate.
  - split; [discriminate |]. intros H. apply andb_true_iff in H as [_ H].
    apply IH in H. discriminate.
Qed.

(** A string strips to nothing exactly when it has no words. *)
Lemma strip_empty_iff (s : string) : strip s = EmptyString <-> split s = [].
Proof.
  unfold strip. rewrite rstrip_empty_iff, lstrip_all_space, split_nil_iff. tauto.
Qed.

(** ** Occurrences *)

Lemma count_from_pos_contains (sub : string) (s : string) :
  forall k, (0 < count_from sub k s)%nat -> sub <> EmptyString -> contains sub s = true.
Proof.
  induction s as [| c s IH]; intros k H Hsub.
  - cbn in H. destruct sub; [congruence | lia].
  - rewrite contains_cons. cbn [count_from] in H. destruct k as [| k].
    + destruct (String.prefix sub (String c s)); [reflexivity |].
      cbn [orb]. now apply (IH 0%nat).
    + rewrite (IH k H Hsub). apply orb_true_r.
Qed.

Lemma contains_count_pos (sub : string) (s : string) :
  contains sub s = true -> (0 < count s sub)%nat.
Proof.
  unfold count. induction s as [| c s IH]; intros H.
  - rewrite contains_nil in H. destruct sub; [cbn; lia | discriminate].
  - rewrite contains_cons in H. cbn [count_from].
    destruct (String.prefix sub (String c s)); [lia |].
    cbn [orb] in H. now apply IH.
Qed.

Lemma count_zero_iff (s sub : string) :
  sub <> EmptyString -> (count s sub = 0%nat <-> contains sub s = false).
Proof.
  intros Hsub. split; intros H.
  - destruct (contains sub s) eqn:E; [| reflexivity].
    apply contains_count_pos in E. lia.
  - destruct (count s sub) eqn:E; [reflexivity |].
    assert (contains sub s = true) as Hc
      by (apply (count_from_pos_contains sub s 0%nat); [unfold count in E; lia | exact Hsub]).
    congruence.
Qed.


(** ** Lower-casing commutes with the splitting helpers *)

Lemma dot_lower_char (c : ascii) : Ascii.eqb (lower_char c) "." = Ascii.eqb c ".".
Proof. destruct c as [[] [] [] [] [] [] [] []]; reflexivity. Qed.

Lemma split_on_dot_lower (s : string) :
  split_on "." (lower s) = List.map lower (split_on "." s).
Proof.
  induction s as [| c s IH]; [reflexivity |].
  cbn [lower split_on]. rewrite dot_lower_char, IH.
  destruct (Ascii.eqb c "."); [reflexivity |].
  destruct (split_on "." s); reflexivity.
Qed.

Lemma lstrip_lower (s : string) : lstrip (lower s) = lower (lstrip s).
Proof.
  induction s as [| c s IH]; [reflexivity |].
  cbn [lower lstrip]. rewrite isspace_lower_char.
  destruct (isspace c); [exact IH | reflexivity].
Qed.

Lemma rstrip_lower (s : string) : rstrip (lower s) = lower (rstrip s).
Proof.
  induction s as [| c s IH]; [reflexivity |].
  cbn [lower rstrip]. rewrite IH, isspace_lower_char.
  destruct (rstrip s); cbn [lower]; [destruct (isspace c) |]; reflexivity.
Qed.

Lemma strip_lower (s : string) : strip (lower s) = lower (strip s).
Proof. unfold strip. now rewrite lstrip_lower, rstrip_lower. Qed.

Lemma truthy_lower (s : string) : truthy (lower s) = truthy s.
Proof. destruct s; reflexivity. Qed.

Lemma filter_truthy_lower (l : list string) :
  List.filter truthy (List.map lower l) = List.map lower (List.filter truthy l).
Proof.
  induction l as [| x l IH]; [reflexivity |].
  cbn [List.map List.filter]. rewrite truthy_lower, IH.
  destruct (truthy x); reflexivity.
Qed.

Lemma sentences_of_lower (t : string) :
  sentences_of (lower t) = List.map lower (sentences_of t).
Proof.
  unfold sentences_of.
  rewrite split_on_dot_lower, List.map_map.
  rewrite <- filter_truthy_lower, List.map_map.
  f_equal. apply List.map_ext. intros s. apply strip_lower.
Qed.

End TextFacts.

Module MoreScorerFacts.
Import TextFacts.

(** ** Letter case *)

Lemma any_in_lower_lower (kws : list string) (s : string) :
  any_in kws (lower (lower s)) = any_in kws (lower s).
Proof. now rewrite lower_idem. Qed.

Lemma has_salutation_first_lower (ss : list string) :
  has_salutation_first (List.map lower ss) = has_salutation_first ss.
Proof.
  rewrite !has_salutation_first_cases.
  destruct ss as [| s1 [| s2 rest]]; try reflexivity.
  cbn [List.map]. apply any_in_lower_lower.
Qed.

Lemma existsb_names_lower (ss : list string) :
  existsb names_speaker (List.map lower ss) = existsb names_speaker ss.
Proof.
  induction ss as [| s ss IH]; [reflexivity |].
  cbn [List.map existsb]. rewrite IH. f_equal.
  unfold names_speaker. apply any_in_lower_lower.
Qed.

Lemma has_name_early_lower (ss : list string) :
  has_name_early (List.map lower ss) = has_name_early ss.
Proof.
  rewrite !has_name_early_firstn, firstn_map. apply existsb_names_lower.
Qed.

Lemma has_closing_lower (ss : list string) :
  has_closing (List.map lower ss) = has_closing ss.
Proof.
  rewrite !has_closing_last.
  change (List.map lower ss) with (lower <$> ss). rewrite fmap_last.
  destruct (last ss); cbn [fmap option_fmap option_map]; [apply any_in_lower_lower | reflexivity].
Qed.

Lemma evaluate_flow_lower (t : string) : evaluate_flow (lower t) = evaluate_flow t.
Proof.
  unfold evaluate_flow. cbv zeta.
  now rewrite sentences_of_lower, has_salutation_first_lower, has_name_early_lower,
    has_closing_lower.
Qed.

Lemma evaluate_salutation_lower (t : string) :
  evaluate_salutation (lower t) = evaluate_salutation t.
Proof. unfold evaluate_salutation. now rewrite lower_idem. Qed.

Lemma evaluate_keyword_presence_lower (t : string) :
  evaluate_keyword_presence (lower t) = evaluate_keyword_presence t.
Proof. unfold evaluate_keyword_presence. now rewrite lower_idem. Qed.

Lemma evaluate_speech_rate_lower (t : string) (d : Z) :
  evaluate_speech_rate (lower t) d = evaluate_speech_rate t d.
Proof. unfold evaluate_speech_rate. cbv zeta. now rewrite split_lower_len. Qed.

Lemma evaluate_grammar_lower (t : string) : evaluate_grammar (lower t) = evaluate_grammar t.
Proof. reflexivity. Qed.

Lemma evaluate_vocabulary_lower (t : string) :
  evaluate_vocabulary (lower t) = evaluate_vocabulary t.
Proof. unfold evaluate_vocabulary. now rewrite lower_idem. Qed.

Lemma evaluate_clarity_lower (t : string) : evaluate_clarity (lower t) = evaluate_clarity t.
Proof. unfold evaluate_clarity. cbv zeta. now rewrite lower_idem, split_lower_len. Qed.

End MoreScorerFacts.

Import TextFacts MoreScorerFacts.

(** X1.  Letter case does not matter to any of the rule-based scorers:
    two transcripts that are equal once lower-cased have the same outcome
    (the same result, or the same failure) in the salutation, keyword,
    flow, speech-rate, grammar, vocabulary and clarity scorers. *)
Theorem X1_case_insensitive (t1 t2 : string) (duration : Z) :
  lower t1 = lower t2 ->
  evaluate_salutation t1 = evaluate_salutation t2 /\
  evaluate_keyword_presence t1 = evaluate_keyword_presence t2 /\
  evaluate_flow t1 = evaluate_flow t2 /\
  evaluate_speech_rate t1 duration = evaluate_speech_rate t2 duration /\
  evaluate_grammar t1 = evaluate_grammar t2 /\
  evaluate_vocabulary t1 = evaluate_vocabulary t2 /\
  evaluate_clarity t1 = evaluate_clarity t2.
Proof.
  intros H.
  rewrite <- (evaluate_salutation_lower t1), <- (evaluate_salutation_lower t2).
  rewrite <- (evaluate_keyword_presence_lower t1), <- (evaluate_keyword_presence_lower t2).
  rewrite <- (evaluate_flow_lower t1), <- (evaluate_flow_lower t2).
  rewrite <- (evaluate_speech_rate_lower t1), <- (evaluate_speech_rate_lower t2).
  rewrite <- (evaluate_grammar_lower t1), <- (evaluate_grammar_lower t2).
  rewrite <- (evaluate_vocabulary_lower t1), <- (evaluate_vocabulary_lower t2).
  rewrite <- (evaluate_clarity_lower t1), <- (evaluate_clarity_lower t2).
  rewrite H. repeat split.
Qed.

Lemma X1_case_insensitive_witness :
  evaluate_salutation "GOOD Morning. I AM Asha." = evaluate_salutation "good morning. i am asha." /\
  evaluate_keyword_presence "GOOD Morning. I AM Asha." = evaluate_keyword_presence "good morning. i am asha." /\
  evaluate_flow "GOOD Morning. I AM Asha." = evaluate_flow "good morning. i am asha." /\
  evaluate_speech_rate "GOOD Morning. I AM Asha." 52 = evaluate_speech_rate "good morning. i am asha." 52 /\
  evaluate_grammar "GOOD Morning. I AM Asha." = evaluate_grammar "good morning. i am asha." /\
  evaluate_vocabulary "GOOD Morning. I AM Asha." = evaluate_vocabulary "good morning. i am asha." /\
  evaluate_clarity "GOOD Morning. I AM Asha." = evaluate_clarity "good morning. i am asha.".
Proof.
  apply (X1_case_insensitive "GOOD Morning. I AM Asha." "good morning. i am asha." 52).
  reflexivity.
Defined.

(** ** Adding text *)

(** [text'] has every phrase that [text] has. *)
Definition covers (text' text : string) : Prop :=
  forall sub, contains sub text = true -> contains sub text' = true.

Lemma covers_app_l (s t : string) : covers (lower (s ++ t)) (lower s).
Proof. intros sub H. rewrite lower_app. now apply contains_app_l. Qed.

Lemma covers_app_r (s t : string) : covers (lower (t ++ s)) (lower s).
Proof. intros sub H. rewrite lower_app. now apply contains_app_r. Qed.

Lemma any_in_covers (kws : list string) (text' text : string) :
  covers text' text -> any_in kws text = true -> any_in kws text' = true.
Proof.
  intros Hc H. unfold any_in in *. rewrite existsb_exists in *.
  destruct H as [kw [Hin Hkw]]. exists kw. split; [exact Hin | now apply Hc].
Qed.

Lemma salutation_score_covers (t t' : string) :
  covers (lower t') (lower t) ->
  Salutation.score (evaluate_salutation t) <= Salutation.score (evaluate_salutation t').
Proof.
  intros Hc.
  pose proof (any_in_covers ["excited to introduce"; "feeling great"] _ _ Hc) as H1.
  pose proof (any_in_covers good_greetings _ _ Hc) as H2.
  pose proof (any_in_covers ["hi"; "hello"] _ _ Hc) as H3.
  unfold any_in at 1 2 in H1. unfold any_in at 1 2 in H3.
  cbn [existsb] in H1, H3. rewrite !orb_false_r in H1, H3.
  unfold evaluate_salutation. cbv zeta.
  destruct (contains "excited to introduce" (lower t) || contains "feeling great" (lower t)).
  - rewrite H1 by reflexivity. reflexivity.
  - destruct (contains "excited to introduce" (lower t') || contains "feeling great" (lower t'));
      [destruct (any_in good_greetings (lower t));
       [| destruct (contains "hi" (lower t) || contains "hello" (lower t))]; cbn; lia |].
    destruct (any_in good_greetings (lower t)).
    + rewrite H2 by reflexivity. reflexivity.
    + destruct (any_in good_greetings (lower t'));
        [destruct (contains "hi" (lower t) || contains "hello" (lower t)); cbn; lia |].
      destruct (contains "hi" (lower t) || contains "hello" (lower t)).
      * rewrite H3 by reflexivity. reflexivity.
      * destruct (contains "hi" (lower t') || contains "hello" (lower t')); cbn; lia.
Qed.

(** X2.  Adding text to a transcript, after it or before it, never lowers
    its salutation score. *)
Theorem X2_salutation_monotone (s t : string) :
  Salutation.score (evaluate_salutation s) <= Salutation.score (evaluate_salutation (s ++ t)) /\
  Salutation.score (evaluate_salutation s) <= Salutation.score (evaluate_salutation (t ++ s)).
Proof.
  split; apply salutation_score_covers; [apply covers_app_l | apply covers_app_r].
Qed.

(** ** Keywords *)

Lemma hit_covers (text' text : string) (item : string * list string) :
  covers text' text -> hit text item = true -> hit text' item = true.
Proof. unfold hit. apply any_in_covers. Qed.

Lemma len_filter_mono {A} (f g : A -> bool) (l : list A) :
  (forall x, f x = true -> g x = true) ->
  len (List.filter f l) <= len (List.filter g l).
Proof.
  intros H. induction l as [| x l IH]; [reflexivity |].
  cbn [List.filter]. specialize (H x).
  destruct (f x), (g x); rewrite ?len_cons; try lia.
Qed.

Lemma len_hit_miss (text : string) (items : list (string * list string)) :
  len (List.filter (hit text) items) + len (List.filter (miss text) items) = len items.
Proof.
  induction items as [| x l IH]; [reflexivity |].
  cbn [List.filter]. unfold miss at 1.
  destruct (hit text x); cbn [negb]; rewrite !len_cons; lia.
Qed.

Lemma len_app {A} (l k : list A) : len (l ++ k)%list = len l + len k.
Proof. unfold len. rewrite length_app. lia. Qed.

Lemma len_map {A B} (f : A -> B) (l : list A) : len (List.map f l) = len l.
Proof. unfold len. now rewrite length_map. Qed.

(** X3.  The keyword score is determined by the lengths of the two lists
    the scorer returns: 10 + 2 * (number found) - 2 * (number missing),
    that is 4 per required and 2 per optional category found; the cap of 10
    on the optional points never changes the sum.  At most 5 categories are
    missing, and found and missing together list between 5 and 10. *)
Theorem X3_keyword_score_formula (transcript : string) :
  let r := evaluate_keyword_presence transcript in
  let f := len (Keywords.found r) in
  let m := len (Keywords.missing r) in
  Keywords.score r = 10 + 2 * f - 2 * m /\
  0 <= m <= 5 /\
  5 <= f + m <= 10.
Proof.
  cbv zeta.
  destruct (evaluate_keyword_presence_eq transcript) as (Hs & Hf & Hm).
  cbv zeta in Hs, Hf, Hm. rewrite Hs, Hf, Hm.
  rewrite len_app, !len_map.
  pose proof (len_hit_miss (lower transcript) must_have) as H1.
  pose proof (len_filter_le (hit (lower transcript)) good_to_have) as H2.
  pose proof (len_nonneg (List.filter (hit (lower transcript)) must_have)).
  pose proof (len_nonneg (List.filter (miss (lower transcript)) must_have)).
  pose proof (len_nonneg (List.filter (hit (lower transcript)) good_to_have)).
  change (len must_have) with 5 in H1. change (len good_to_have) with 5 in H2.
  lia.
Qed.

(** X4.  Adding text to a transcript never lowers its keyword score and
    never adds a category to the missing list. *)
Theorem X4_keyword_monotone (s t : string) :
  Keywords.score (evaluate_keyword_presence s)
    <= Keywords.score (evaluate_keyword_presence (s ++ t)) /\
  Keywords.missing (evaluate_keyword_presence (s ++ t))
    ⊆ Keywords.missing (evaluate_keyword_presence s).
Proof.
  destruct (evaluate_keyword_presence_eq s) as (Hs & _ & Hm).
  destruct (evaluate_keyword_presence_eq (s ++ t)) as (Hs' & _ & Hm').
  cbv zeta in *. rewrite Hs, Hs', Hm, Hm'.
  pose proof (covers_app_l s t) as Hc.
  split.
  - pose proof (len_filter_mono _ _ must_have
                  (fun x => hit_covers _ _ x Hc)) as H1.
    pose proof (len_filter_mono _ _ good_to_have
                  (fun x => hit_covers _ _ x Hc)) as H2.
    lia.
  - intros c. rewrite !list_elem_of_In, !in_map_iff.
    intros [item [Hc' Hin]]. exists item. split; [exact Hc' |].
    apply filter_In in Hin as [Hin Hmiss]. apply filter_In. split; [exact Hin |].
    unfold miss in *. apply negb_true_iff in Hmiss. apply negb_true_iff.
    destruct (hit (lower s) item) eqn:E; [| reflexivity].
    apply (hit_covers _ _ item Hc) in E. congruence.
Qed.

(** ** Flow *)

Lemma prefix_dot (c : ascii) (s : string) :
  String.prefix "." (String c s) = Ascii.eqb c ".".
Proof.
  cbn [String.prefix]. destruct (ascii_dec "." c) as [<- | Hne].
  - destruct s; reflexivity.
  - symmetry. apply Ascii.eqb_neq. congruence.
Qed.

Lemma split_on_no_dot (s : string) :
  contains "." s = false -> split_on "." s = [s].
Proof.
  induction s as [| c s IH]; [reflexivity |].
  rewrite contains_cons, prefix_dot. intros H.
  apply orb_false_iff in H as [Hc Hs].
  cbn [split_on]. rewrite Hc, (IH Hs). reflexivity.
Qed.

(** X5.  A transcript without a period is at most one sentence, and the
    flow scorer never gives it more than 2: the greeting check needs two
    sentences. *)
Theorem X5_flow_one_sentence (transcript : string) :
  contains "." transcript = false ->
  (List.length (sentences_of transcript) <= 1)%nat /\
  (Flow.score (evaluate_flow transcript) = 0 \/ Flow.score (evaluate_flow transcript) = 2).
Proof.
  intros H.
  assert (List.length (sentences_of transcript) <= 1)%nat as Hlen.
  { unfold sentences_of. rewrite (split_on_no_dot _ H). cbn [List.map List.filter].
    destruct (truthy (strip transcript)); cbn; lia. }
  split; [exact Hlen |].
  unfold evaluate_flow. cbv zeta. rewrite has_salutation_first_cases.
  destruct (sentences_of transcript) as [| s1 [| s2 rest]]; [| | cbn in Hlen; lia];
    cbn [andb]; destruct (has_name_early _); cbn; auto.
Qed.

Lemma X5_flow_one_sentence_witness :
  (List.length (sentences_of "Hello my name is Asha thank you") <= 1)%nat /\
  (Flow.score (evaluate_flow "Hello my name is Asha thank you") = 0 \/
   Flow.score (evaluate_flow "Hello my name is Asha thank you") = 2).
Proof.
  apply (X5_flow_one_sentence "Hello my name is Asha thank you"). reflexivity.
Defined.

(** ** Speech rate: negative durations *)

(** Zero, negative or not a number. *)
Definition not_positive (f : float) : bool :=
  match f with
  | S754_zero _ => true
  | S754_finite s _ _ => s
  | S754_infinity s => s
  | S754_nan => true
  end.

Lemma binary_round_aux_negative (m e : Z) (l : location) :
  not_positive (binary_round_aux prec emax true m e l) = true.
Proof.
  unfold binary_round_aux.
  destruct (shr_fexp prec emax m e l) as [mrs1 e1].
  destruct (shr_fexp prec emax _ e1 loc_Exact) as [mrs2 e2].
  destruct (shr_m mrs2); [reflexivity | | reflexivity].
  destruct (e2 <=? emax - prec); reflexivity.
Qed.

Lemma int_truediv_negative (a b : Z) (q : float) :
  0 <= a -> b < 0 -> int_truediv a b = Ok q -> not_positive q = true.
Proof.
  intros Ha Hb. unfold int_truediv.
  destruct b as [| pb | pb]; try lia.
  destruct a as [| pa | pa]; try lia.
  - intros [= <-]. reflexivity.
  - cbn [Z.abs Z.to_pos Z.ltb Z.compare].
    destruct (is_inf _); [discriminate |]. intros [= <-].
    unfold SFdiv. destruct (SFdiv_core_binary _ _ _ _ _ _) as [[mz ez] lz].
    apply binary_round_aux_negative.
Qed.

Lemma float_of_Z_60 : float_of_Z 60 = S754_finite false 8444249301319680 (-47).
Proof. reflexivity. Qed.

Lemma wpm_of_not_positive (q : float) :
  not_positive q = true -> not_positive (wpm_of q) = true.
Proof.
  unfold wpm_of. rewrite float_of_Z_60.
  destruct q as [s | s | | s m e]; cbn [not_positive SFmul]; intros H;
    try subst s; try reflexivity.
  cbn [xorb]. apply binary_round_aux_negative.
Qed.

Lemma positive_int_above (a : Z) (w : float) :
  0 < a -> not_positive w = true ->
  le (Int a) (Float w) = false /\ lt (Int a) (Float w) = false.
Proof.
  intros Ha Hw. unfold le, lt, compare. cbn [nval].
  destruct w as [s | s | | s m e]; cbn [not_positive fval] in *; try subst s.
  - rewrite xcompare_int_l.
    assert (0 < 2 ^ (- Z.min 0 0)) by (apply Z.pow_pos_nonneg; lia).
    destruct (Z.compare_spec (a * 2 ^ (- Z.min 0 0)) (0 * 2 ^ (0 - Z.min 0 0)));
      split; try reflexivity; nia.
  - split; reflexivity.
  - split; reflexivity.
  - rewrite xcompare_int_l.
    assert (0 < 2 ^ (- Z.min 0 e)) by (apply Z.pow_pos_nonneg; lia).
    assert (0 < 2 ^ (e - Z.min 0 e)) by (apply Z.pow_pos_nonneg; lia).
    destruct (Z.compare_spec (a * 2 ^ (- Z.min 0 e)) (Z.neg m * 2 ^ (e - Z.min 0 e)));
      split; try reflexivity; nia.
Qed.

Lemma speech_band_not_positive (w : float) (shown : string) :
  not_positive w = true ->
  speech_band (Float w) shown = (2, "Too slow: " ++ shown ++ " WPM").
Proof.
  intros Hw. apply speech_band_cases.
  destruct (positive_int_above 111 w ltac:(lia) Hw) as [H111 _].
  destruct (positive_int_above 141 w ltac:(lia) Hw) as [H141 _].
  destruct (positive_int_above 81 w ltac:(lia) Hw) as [H81 _].
  destruct (positive_int_above 160 w ltac:(lia) Hw) as [_ H160].
  unfold gt. rewrite H111, H141, H81, H160. repeat split.
Qed.

(** X6.  A negative duration is not an error for the speech-rate scorer:
    the rate it computes is negative or zero, and the result is score 2
    with the feedback "Too slow". *)
Theorem X6_negative_duration_too_slow (transcript : string) (duration : Z) :
  duration < 0 ->
  str_fits transcript ->
  exists r shown,
    evaluate_speech_rate transcript duration = Ok r /\
    Speech.score r = 2 /\
    Speech.feedback r = "Too slow: " ++ shown ++ " WPM".
Proof.
  intros Hd Ht.
  destruct (int_truediv_ok (len (split transcript)) duration (str_fits_words _ Ht) ltac:(lia))
    as [q Hq].
  pose proof (len_split_bounds transcript) as [Hwc _].
  pose proof (wpm_of_not_positive q (int_truediv_negative _ _ q Hwc Hd Hq)) as Hw.
  exists {| Speech.score := fst (speech_band (Float (wpm_of q)) (float_format 1 (wpm_of q)));
            Speech.wpm := round (Float (wpm_of q)) 1;
            Speech.feedback := snd (speech_band (Float (wpm_of q)) (float_format 1 (wpm_of q))) |},
    (float_format 1 (wpm_of q)).
  split; [apply (evaluate_speech_rate_eq _ _ _ Hq) |].
  cbn [Speech.score Speech.feedback].
  rewrite (speech_band_not_positive _ _ Hw). split; reflexivity.
Qed.

Lemma X6_negative_duration_too_slow_witness :
  exists r shown,
    evaluate_speech_rate Samples.short_intro (-30) = Ok r /\
    Speech.score r = 2 /\
    Speech.feedback r = "Too slow: " ++ shown ++ " WPM".
Proof.
  apply (X6_negative_duration_too_slow Samples.short_intro (-30)).
  - lia.
  - unfold str_fits, PY_SSIZE_T_MAX. cbn. lia.
Defined.

(** ** Speech rate: the classification of word counts *)

(** [evaluate_speech_rate] reads the transcript through its word count
    only. *)
Definition speech_of_count (word_count duration_sec : Z) : py Speech.result :=
  q ← truediv (Int word_count) (Int duration_sec);
  wpm ← mul q (Int 60);
  shown ← format_f 1 wpm;
  let '(score, feedback) := speech_band wpm shown in
  mret {| Speech.score := score; Speech.wpm := round wpm 1; Speech.feedback := feedback |}.

Lemma evaluate_speech_rate_count (t : string) (d : Z) :
  evaluate_speech_rate t d = speech_of_count (len (split t)) d.
Proof. reflexivity. Qed.

(** The integer bands, for a recording of one minute. *)
Definition one_minute_band (word_count : Z) : Z * string :=
  if word_count <? 81 then (2, "Too slow: ")
  else if word_count <=? 110 then (6, "Acceptable speech rate: ")
  else if word_count <=? 140 then (10, "Ideal speech rate: ")
  else if word_count <=? 160 then (6, "Acceptable speech rate: ")
  else (2, "Too fast: ").

Definition one_minute_check (wc : Z) : bool :=
  match speech_of_count wc 60 with
  | Ok r =>
      (Speech.score r =? fst (one_minute_band wc)) &&
      String.eqb (Speech.feedback r) (snd (one_minute_band wc) ++ str_of_Z wc ++ ".0 WPM") &&
      eq (Speech.wpm r) (Int wc)
  | Raise _ => false
  end.

Lemma one_minute_check_all :
  forallb one_minute_check (List.map Z.of_nat (seq 0 2001)) = true.
Proof. vm_compute. reflexivity. Qed.

(** The product [(word_count / 60) * 60] itself need not be the word
    count: for 123 words it lies below 123, and [round(wpm, 1)] gives 123
    back. *)
Lemma one_minute_unrounded_123 :
  exists q,
    int_truediv 123 60 = Ok q /\
    lt (Float (wpm_of q)) (Int 123) = true /\
    eq (round (Float (wpm_of q)) 1) (Int 123) = true.
Proof. eexists. split; [vm_compute; reflexivity |]. split; vm_compute; reflexivity. Qed.

(** X7.  For a recording of one minute the rate that the result reports
    (its wpm field, which is rounded to one decimal, and the figure in the
    feedback) is the word count itself, and the bands leave no gap: for
    every transcript of at most 2000 words the result is "too slow" below
    81 words, "acceptable" from 81 to 110, "ideal" from 111 to 140,
    "acceptable" from 141 to 160 and "too fast" above, with the word count
    followed by ".0" shown as the rate.  Nothing is said of the unrounded
    product [(word_count / 60) * 60]. *)
Theorem X7_one_minute_bands (transcript : string) :
  let wc := len (split transcript) in
  wc <= 2000 ->
  exists r,
    evaluate_speech_rate transcript 60 = Ok r /\
    Speech.score r = fst (one_minute_band wc) /\
    Speech.feedback r = snd (one_minute_band wc) ++ str_of_Z wc ++ ".0 WPM" /\
    eq (Speech.wpm r) (Int wc) = true.
Proof.
  cbv zeta. intros Hwc.
  pose proof (len_split_bounds transcript) as [H0 _].
  pose proof one_minute_check_all as Hall.
  rewrite forallb_forall in Hall.
  specialize (Hall (len (split transcript))).
  assert (In (len (split transcript)) (List.map Z.of_nat (seq 0 2001))) as Hin.
  { apply in_map_iff. exists (Z.to_nat (len (split transcript))).
    split; [lia | apply in_seq; lia]. }
  specialize (Hall Hin). unfold one_minute_check in Hall.
  rewrite evaluate_speech_rate_count.
  destruct (speech_of_count (len (split transcript)) 60) as [r | e]; [| discriminate].
  apply andb_true_iff in Hall as [Hall Hwpm].
  apply andb_true_iff in Hall as [Hscore Hfb].
  exists r. split; [reflexivity |].
  split; [now apply Z.eqb_eq |]. split; [now apply String.eqb_eq | exact Hwpm].
Qed.

Lemma X7_one_minute_bands_witness :
  exists r,
    evaluate_speech_rate (Samples.words_of 111) 60 = Ok r /\
    Speech.score r = fst (one_minute_band (len (split (Samples.words_of 111)))) /\
    Speech.feedback r =
      snd (one_minute_band (len (split (Samples.words_of 111)))) ++
      str_of_Z (len (split (Samples.words_of 111))) ++ ".0 WPM" /\
    eq (Speech.wpm r) (Int (len (split (Samples.words_of 111)))) = true.
Proof.
  apply (X7_one_minute_bands (Samples.words_of 111)).
  vm_compute. discriminate.
Defined.

(** The classification at the default duration of 52 seconds. *)
Definition default_duration_band (word_count : Z) : Z * string :=
  if word_count <=? 70 then (2, "Too slow: ")
  else if word_count <=? 95 then (6, "Acceptable speech rate: ")
  else if word_count =? 96 then (2, "Too slow: ")
  else if word_count <=? 121 then (10, "Ideal speech rate: ")
  else if word_count =? 122 then (2, "Too slow: ")
  else if word_count <=? 138 then (6, "Acceptable speech rate: ")
  else (2, "Too fast: ").

Definition default_duration_check (wc : Z) : bool :=
  match speech_of_count wc 52 with
  | Ok r =>
      (Speech.score r =? fst (default_duration_band wc)) &&
      String.prefix (snd (default_duration_band wc)) (Speech.feedback r)
  | Raise _ => false
  end.

Lemma default_duration_check_all :
  forallb default_duration_check (List.map Z.of_nat (seq 0 2001)) = true.
Proof. vm_compute. reflexivity. Qed.

(** X8.  At the default duration of 52 seconds, for every transcript of at
    most 2000 words: up to 70 words are "too slow", 71 to 95 "acceptable",
    97 to 121 "ideal", 123 to 138 "acceptable", 139 and more "too fast";
    exactly two word counts fall between the bands, 96 and 122, and both
    are reported as "too slow". *)
Theorem X8_default_duration_bands (transcript : string) :
  let wc := len (split transcript) in
  wc <= 2000 ->
  exists r,
    evaluate_speech_rate transcript 52 = Ok r /\
    Speech.score r = fst (default_duration_band wc) /\
    String.prefix (snd (default_duration_band wc)) (Speech.feedback r) = true.
Proof.
  cbv zeta. intros Hwc.
  pose proof (len_split_bounds transcript) as [H0 _].
  pose proof default_duration_check_all as Hall.
  rewrite forallb_forall in Hall.
  specialize (Hall (len (split transcript))).
  assert (In (len (split transcript)) (List.map Z.of_nat (seq 0 2001))) as Hin.
  { apply in_map_iff. exists (Z.to_nat (len (split transcript))).
    split; [lia | apply in_seq; lia]. }
  specialize (Hall Hin). unfold default_duration_check in Hall.
  rewrite evaluate_speech_rate_count.
  destruct (speech_of_count (len (split transcript)) 52) as [r | e]; [| discriminate].
  apply andb_true_iff in Hall as [Hscore Hfb].
  exists r. split; [reflexivity |]. split; [now apply Z.eqb_eq | exact Hfb].
Qed.

Lemma X8_default_duration_bands_witness :
  exists r,
    evaluate_speech_rate (Samples.words_of 122) 52 = Ok r /\
    Speech.score r = fst (default_duration_band (len (split (Samples.words_of 122)))) /\
    String.prefix (snd (default_duration_band (len (split (Samples.words_of 122)))))
      (Speech.feedback r) = true.
Proof.
  apply (X8_default_duration_bands (Samples.words_of 122)).
  vm_compute. discriminate.
Defined.

(** ** Vocabulary *)

Definition float_one : float := S754_finite false 4503599627370496 (-52).

(** An int divided by itself is exactly 1.0. *)
Lemma int_truediv_self (n : Z) : 0 < n -> int_truediv n n = Ok float_one.
Proof.
  intros Hn. destruct n as [| p | p]; try lia.
  unfold int_truediv. cbn [Z.ltb Z.compare].
  change (Z.to_pos (Z.abs (Z.pos p))) with p.
  assert (SFdiv prec emax (S754_finite false p 0) (S754_finite false p 0) = float_one) as ->;
    [| reflexivity].
  unfold SFdiv, SFdiv_core_binary.
  replace (Zdigits2 (Z.pos p) + 0 - (Zdigits2 (Z.pos p) + 0)) with 0 by lia.
  change (Z.min (fexp prec emax 0) (0 - 0)) with (-53).
  change (0 - 0 - -53) with 53. cbv iota.
  assert (Z.div_eucl (Z.shiftl (Z.pos p) 53) (Z.pos p) = (2 ^ 53, 0)) as ->.
  { rewrite Z.shiftl_mul_pow2 by lia.
    destruct (Z.div_eucl (Z.pos p * 2 ^ 53) (Z.pos p)) as [q r] eqn:E.
    assert (q = Z.pos p * 2 ^ 53 / Z.pos p) as -> by (unfold Z.div; now rewrite E).
    assert (r = (Z.pos p * 2 ^ 53) mod Z.pos p) as -> by (unfold Z.modulo; now rewrite E).
    rewrite (Z.mul_comm (Z.pos p)), Z.div_mul, Z.mod_mul by lia. reflexivity. }
  assert (new_location (Z.pos p) 0 = loc_Exact) as ->.
  { unfold new_location. destruct (Z.even (Z.pos p)); reflexivity. }
  vm_compute. reflexivity.
Qed.

(** X9.  A transcript whose words are pairwise different once lower-cased
    has a type-token ratio of exactly 1.0 and the vocabulary score 10,
    whatever its length. *)
Theorem X9_distinct_words_full_score (transcript : string) :
  NoDup (split (lower transcript)) ->
  split transcript <> [] ->
  evaluate_vocabulary transcript =
  Ok {| Vocabulary.score := 10;
        Vocabulary.ttr := Float float_one;
        Vocabulary.unique_words := Some (len (split transcript));
        Vocabulary.total_words := Some (len (split transcript));
        Vocabulary.feedback :=
          "TTR: 1.000 (" ++ str_of_Z (len (split transcript)) ++ "/" ++
          str_of_Z (len (split transcript)) ++ " unique words)" |}.
Proof.
  intros Hnd Hne.
  assert (vocab_total transcript = len (split transcript)) as Htotal
    by (unfold vocab_total; apply split_lower_len).
  assert (vocab_unique transcript = len (split transcript)) as Hunique.
  { unfold vocab_unique. rewrite (size_list_to_set _ Hnd).
    fold (len (split (lower transcript))). apply split_lower_len. }
  assert (0 < len (split transcript)) as Hpos.
  { destruct (split transcript); [congruence | rewrite len_cons].
    pose proof (len_nonneg l). lia. }
  assert (int_truediv (vocab_unique transcript) (vocab_total transcript) = Ok float_one) as Hq
    by (rewrite Hunique, Htotal; now apply int_truediv_self).
  assert (vocab_total transcript <> 0) as Hn by lia.
  rewrite (evaluate_vocabulary_words _ _ Hn Hq), Hunique, Htotal.
  reflexivity.
Qed.

Lemma X9_distinct_words_full_score_witness :
  evaluate_vocabulary "My name is Asha" =
  Ok {| Vocabulary.score := 10;
        Vocabulary.ttr := Float float_one;
        Vocabulary.unique_words := Some (len (split "My name is Asha"));
        Vocabulary.total_words := Some (len (split "My name is Asha"));
        Vocabulary.feedback :=
          "TTR: 1.000 (" ++ str_of_Z (len (split "My name is Asha")) ++ "/" ++
          str_of_Z (len (split "My name is Asha")) ++ " unique words)" |}.
Proof.
  apply (X9_distinct_words_full_score "My name is Asha").
  - apply (bool_decide_unpack _). vm_compute. exact I.
  - discriminate.
Defined.

(** X10.  The vocabulary score is 0 exactly for the transcripts without
    words; with at least one word it is between 2 and 10 and the result
    carries the number of words. *)
Theorem X10_vocabulary_zero_iff_no_words (transcript : string) :
  str_fits transcript ->
  exists r,
    evaluate_vocabulary transcript = Ok r /\
    (Vocabulary.score r = 0 <-> split transcript = []) /\
    (split transcript <> [] ->
     2 <= Vocabulary.score r <= 10 /\
     Vocabulary.total_words r = Some (len (split transcript))).
Proof.
  intros Ht.
  assert (vocab_total transcript = len (split transcript)) as Htotal
    by (unfold vocab_total; apply split_lower_len).
  destruct (split transcript) as [| w ws] eqn:Hsplit.
  - eexists. split; [apply evaluate_vocabulary_nowords; rewrite Htotal; reflexivity |].
    cbn [Vocabulary.score]. split; [tauto | congruence].
  - assert (vocab_total transcript <> 0) as Hn.
    { rewrite Htotal, len_cons. pose proof (len_nonneg ws). lia. }
    destruct (int_truediv_ok _ _ (str_fits_unique _ Ht) Hn) as [q Hq].
    eexists. split; [apply (evaluate_vocabulary_words _ q Hn Hq) |].
    cbn [Vocabulary.score Vocabulary.total_words].
    pose proof (ratio_band_range (Float q)) as Hr. cbv zeta in Hr.
    split; [split; [lia | discriminate] |].
    intros _. rewrite Htotal. split; [lia | reflexivity].
Qed.

Lemma X10_vocabulary_zero_iff_no_words_witness :
  exists r,
    evaluate_vocabulary Samples.short_intro = Ok r /\
    (Vocabulary.score r = 0 <-> split Samples.short_intro = []) /\
    (split Samples.short_intro <> [] ->
     2 <= Vocabulary.score r <= 10 /\
     Vocabulary.total_words r = Some (len (split Samples.short_intro))).
Proof.
  apply (X10_vocabulary_zero_iff_no_words Samples.short_intro).
  unfold str_fits, PY_SSIZE_T_MAX. cbn. lia.
Defined.

(** ** Clarity *)

Lemma fold_add_zero_iff (text : string) (l : list string) :
  forall a, 0 <= a ->
    (fold_left Z.add (List.map (fun f => Z.of_nat (count text f)) l) a = 0 <->
     a = 0 /\ forall f, In f l -> count text f = 0%nat).
Proof.
  induction l as [| x l IH]; intros a Ha; cbn [List.map fold_left].
  - split; [intros ->; split; [reflexivity | intros f []] | tauto].
  - rewrite IH by lia. split.
    + intros [H1 H2]. split; [lia |].
      intros f [<- | Hin]; [lia | now apply H2].
    + intros [-> H]. split.
      * rewrite (H x); [reflexivity | now left].
      * intros f Hin. apply H. now right.
Qed.

Lemma count_fillers_zero_iff (text : string) :
  count_fillers text = 0 <->
  forall filler, In filler FILLER_WORDS -> contains filler text = false.
Proof.
  unfold count_fillers. rewrite fold_add_zero_iff by lia.
  assert (forall f, In f FILLER_WORDS -> f <> EmptyString) as Hne.
  { intros f Hin ->. revert Hin. apply (bool_decide_unpack _). vm_compute. exact I. }
  split.
  - intros [_ H] f Hin. apply count_zero_iff; [now apply Hne | now apply H].
  - intros H. split; [reflexivity |]. intros f Hin.
    apply count_zero_iff; [now apply Hne | now apply H].
Qed.

Lemma float_of_Z_100 : float_of_Z 100 = S754_finite false 7036874417766400 (-46).
Proof. reflexivity. Qed.

(** X11.  The filler count is 0 exactly when the lower-cased transcript
    contains none of the filler phrases (as substrings), and a transcript
    without fillers gets the full clarity score of 15 with a rate of 0. *)
Theorem X11_clarity_without_fillers (transcript : string) :
  str_fits transcript ->
  exists r,
    evaluate_clarity transcript = Ok r /\
    (Clarity.filler_count r = 0 <->
     forall filler, In filler FILLER_WORDS -> contains filler (lower transcript) = false) /\
    (Clarity.filler_count r = 0 ->
     Clarity.score r = 15 /\ eq (Clarity.filler_rate r) (Int 0) = true).
Proof.
  intros Ht.
  pose proof (len_split_bounds transcript) as [Hwc _].
  destruct (Z.eq_dec (len (split transcript)) 0) as [H0 | Hn].
  - eexists. split; [apply (evaluate_clarity_nowords _ H0) |].
    cbn [Clarity.filler_count Clarity.score Clarity.filler_rate].
    split; [apply count_fillers_zero_iff |]. intros _. split; reflexivity.
  - assert (Z.abs (count_fillers (lower transcript)) < 2 ^ 1023) as Hfc.
    { pose proof (count_fillers_bounds (lower transcript)) as Hb.
      rewrite lower_length in Hb.
      unfold str_fits, PY_SSIZE_T_MAX in Ht.
      assert (2 ^ 67 < 2 ^ 1023) by (apply Z.pow_lt_mono_r; lia).
      change (2 ^ 63) with 9223372036854775808 in Ht.
      change (2 ^ 67) with 147573952589676412928 in *. lia. }
    destruct (int_truediv_ok _ _ Hfc Hn) as [q Hq].
    assert (0 < len (split transcript)) as Hpos by lia.
    eexists. split; [apply (evaluate_clarity_words _ q Hpos Hq) |].
    cbn [Clarity.filler_count Clarity.score Clarity.filler_rate].
    split; [apply count_fillers_zero_iff |]. intros Hz.
    rewrite Hz, int_truediv_zero in Hq by lia.
    replace (len (split transcript) <? 0) with false in Hq
      by (symmetry; apply Z.ltb_ge; lia).
    injection Hq as <-. rewrite float_of_Z_100. split; reflexivity.
Qed.

Lemma X11_clarity_without_fillers_witness :
  exists r,
    evaluate_clarity "My name is Asha" = Ok r /\
    (Clarity.filler_count r = 0 <->
     forall filler, In filler FILLER_WORDS -> contains filler (lower "My name is Asha") = false) /\
    (Clarity.filler_count r = 0 ->
     Clarity.score r = 15 /\ eq (Clarity.filler_rate r) (Int 0) = true).
Proof.
  apply (X11_clarity_without_fillers "My name is Asha").
  unfold str_fits, PY_SSIZE_T_MAX. cbn. lia.
Defined.

(** ** Comparisons are transitive *)

Lemma compare_mul_pos (a b p : Z) : 0 < p -> (a * p ?= b * p) = (a ?= b).
Proof.
  intros Hp.
  destruct (Z.compare_spec (a * p) (b * p)), (Z.compare_spec a b);
    try reflexivity; nia.
Qed.

Lemma xcompare_fin_scaled (m1 e1 m2 e2 e0 : Z) :
  e0 <= e1 -> e0 <= e2 ->
  xcompare (XFin m1 e1) (XFin m2 e2) =
  Some (Z.compare (m1 * 2 ^ (e1 - e0)) (m2 * 2 ^ (e2 - e0))).
Proof.
  intros H1 H2. unfold xcompare. f_equal.
  set (e := Z.min e1 e2).
  assert (e0 <= e) as He by (subst e; lia).
  replace (e1 - e0) with ((e1 - e) + (e - e0)) by lia.
  replace (e2 - e0) with ((e2 - e) + (e - e0)) by lia.
  rewrite !Z.pow_add_r by (subst e; lia).
  rewrite !Z.mul_assoc.
  symmetry. apply compare_mul_pos. apply Z.pow_pos_nonneg; lia.
Qed.

Lemma num_le_trans (x y z : num) :
  le x y = true -> le y z = true -> le x z = true.
Proof.
  unfold le, compare.
  destruct (nval x) as [| sx | mx ex], (nval y) as [| sy | my ey],
    (nval z) as [| sz | mz ez];
    try discriminate;
    try solve [repeat match goal with s : bool |- _ => destruct s end;
               cbn [xcompare]; intros H1 H2;
               try discriminate H1; try discriminate H2; reflexivity].
  set (e0 := Z.min ex (Z.min ey ez)).
  rewrite (xcompare_fin_scaled mx ex my ey e0) by (subst e0; lia).
  rewrite (xcompare_fin_scaled my ey mz ez e0) by (subst e0; lia).
  rewrite (xcompare_fin_scaled mx ex mz ez e0) by (subst e0; lia).
  destruct (Z.compare_spec (mx * 2 ^ (ex - e0)) (my * 2 ^ (ey - e0)));
    destruct (Z.compare_spec (my * 2 ^ (ey - e0)) (mz * 2 ^ (ez - e0)));
    destruct (Z.compare_spec (mx * 2 ^ (ex - e0)) (mz * 2 ^ (ez - e0)));
    try discriminate; try reflexivity; lia.
Qed.

Lemma engagement_band_mono (x y : num) :
  le x y = true -> engagement_band x <= engagement_band y.
Proof.
  intros H. unfold engagement_band, ge.
  pose proof (fun c Hc => num_le_trans c x y Hc H) as Htr.
  destruct (le (Float lit_0_9) x) eqn:E9; [rewrite (Htr _ E9); reflexivity |].
  destruct (le (Float lit_0_7) x) eqn:E7;
    [rewrite (Htr _ E7); destruct (le (Float lit_0_9) y); lia |].
  destruct (le (Float lit_0_5) x) eqn:E5;
    [rewrite (Htr _ E5); destruct (le (Float lit_0_9) y), (le (Float lit_0_7) y); lia |].
  destruct (le (Float lit_0_3) x) eqn:E3;
    [rewrite (Htr _ E3);
     destruct (le (Float lit_0_9) y), (le (Float lit_0_7) y), (le (Float lit_0_5) y); lia |].
  destruct (le (Float lit_0_9) y), (le (Float lit_0_7) y), (le (Float lit_0_5) y),
    (le (Float lit_0_3) y); lia.
Qed.

(** X12.  The engagement score follows the positive ratio reported by the
    analyzer monotonically: a transcript with a ratio at least as high
    never gets a lower score. *)
Theorem X12_engagement_monotone
    (polarity_scores : string -> polarity) (t1 t2 : string) :
  le (Float (pos (polarity_scores t1))) (Float (pos (polarity_scores t2))) = true ->
  exists r1 r2,
    evaluate_engagement polarity_scores t1 = Ok r1 /\
    evaluate_engagement polarity_scores t2 = Ok r2 /\
    Engagement.score r1 <= Engagement.score r2.
Proof.
  intros H. do 2 eexists.
  split; [apply evaluate_engagement_eq |]. split; [apply evaluate_engagement_eq |].
  cbn [Engagement.score]. now apply engagement_band_mono.
Qed.

(** An analyzer whose positive ratio grows with the length of the text. *)
Definition length_polarity (s : string) : polarity :=
  {| neg := S754_zero false; neu := S754_zero false;
     pos := if (String.length s <? 10)%nat then lit_0_3 else lit_0_9;
     compound := S754_zero false |}.

Lemma X12_engagement_monotone_witness :
  exists r1 r2,
    evaluate_engagement length_polarity "Hi" = Ok r1 /\
    evaluate_engagement length_polarity "I love playing football" = Ok r2 /\
    Engagement.score r1 <= Engagement.score r2.
Proof.
  apply (X12_engagement_monotone length_polarity "Hi" "I love playing football").
  vm_compute. reflexivity.
Defined.

(** ** The endpoint *)

(** The two fields the handler reads, with their defaults. *)
Definition transcript_of (d : gmap string value) : value :=
  match d !! "transcript" with Some v => v | None => VStr "" end.

Definition duration_of (d : gmap string value) : py Z :=
  int (match d !! "duration" with Some v => v | None => VInt 52 end).

Lemma Ok_inj {A} (a b : A) : Ok a = Ok b -> a = b.
Proof. now intros [= ->]. Qed.

Lemma before_scoring_dict (d : gmap string value) :
  before_scoring (Parsed (VDict d)) =
  (duration ← duration_of d;
   text ← as_str (transcript_of d);
   if negb (truthy (strip text))
   then Ok (Answer (Json400 "Transcript cannot be empty"))
   else Ok (Call text duration)).
Proof.
  unfold before_scoring, duration_of, transcript_of.
  cbn [get_json]. rewrite bind_Ok, !get_VDict, !bind_Ok. reflexivity.
Qed.

Lemma truthy_strip (s : string) : truthy (strip s) = false <-> split s = [].
Proof.
  rewrite <- strip_empty_iff. destruct (strip s); cbn; split; congruence.
Qed.

(** X15.  The handler calls the scoring engine exactly when the body is a
    JSON object whose transcript field is a string with at least one word
    and whose duration field, 52 when absent, is converted by [int()]; the
    engine is then given that string and that int, whatever its sign.  In
    every other case the engine is not called. *)
Theorem X15_engine_called_iff (req : request) (transcript : string) (duration : Z) :
  before_scoring req = Ok (Call transcript duration) <->
  exists d,
    req = Parsed (VDict d) /\
    d !! "transcript" = Some (VStr transcript) /\
    split transcript <> [] /\
    duration_of d = Ok duration.
Proof.
  split.
  - intros H.
    destruct req as [| data]; [discriminate |].
    destruct data as [| b | n | f | s | l | d]; try discriminate.
    exists d. split; [reflexivity |].
    rewrite before_scoring_dict in H. unfold transcript_of in H.
    destruct (duration_of d) as [z | e]; [| discriminate].
    rewrite bind_Ok in H.
    destruct (d !! "transcript") as [v |]; [| discriminate].
    destruct v as [| b | n | f | s | l | m]; try discriminate.
    cbn [as_str] in H. rewrite bind_Ok in H.
    destruct (truthy (strip s)) eqn:Hts; cbn [negb] in H; [| discriminate].
    apply Ok_inj in H. injection H as -> ->.
    split; [reflexivity |]. split; [| reflexivity].
    intros Hnil. apply truthy_strip in Hnil. congruence.
  - intros (d & -> & Ht & Hne & Hz).
    rewrite before_scoring_dict, Hz, bind_Ok. unfold transcript_of. rewrite Ht.
    cbn [as_str]. rewrite bind_Ok.
    destruct (truthy (strip transcript)) eqn:Hts; [reflexivity |].
    apply truthy_strip in Hts. congruence.
Qed.

(** X16.  For bodies whose duration field is converted by [int()], the
    answer depends on the body only through the transcript field and the
    int that the duration converts to: any other key is ignored, an absent
    duration is the same as 52, and "30", 30 and 30.9 are the same
    duration. *)
Theorem X16_only_two_fields
    (polarity_scores : string -> polarity) (d d' : gmap string value) (z : Z) :
  d !! "transcript" = d' !! "transcript" ->
  duration_of d = Ok z ->
  duration_of d' = Ok z ->
  evaluate polarity_scores (Parsed (VDict d)) = evaluate polarity_scores (Parsed (VDict d')).
Proof.
  intros Ht Hd Hd'. unfold evaluate. rewrite !before_scoring_dict.
  unfold transcript_of. now rewrite Ht, Hd, Hd'.
Qed.

Lemma X16_only_two_fields_witness :
  evaluate Samples.even_polarity
    (Parsed (VDict (<["transcript" := VStr "Hello there"]> (<["name" := VStr "Asha"]> ∅))))
  = evaluate Samples.even_polarity
      (Parsed (VDict (<["transcript" := VStr "Hello there"]>
                        (<["duration" := VStr " 52 "]> ∅)))).
Proof.
  apply (X16_only_two_fields Samples.even_polarity
           (<["transcript" := VStr "Hello there"]> (<["name" := VStr "Asha"]> ∅))
           (<["transcript" := VStr "Hello there"]> (<["duration" := VStr " 52 "]> ∅))
           52).
  - vm_compute. reflexivity.
  - vm_compute. reflexivity.
  - vm_compute. reflexivity.
Defined.

(** X17.  The server-error answers: an unreadable body, a body that is not
    a JSON object, a duration that [int()] rejects (whatever the
    transcript), and a transcript that is present but not a string all
    give a 500 response carrying the exception, never the 400 message and
    never a report. *)
Theorem X17_server_errors (polarity_scores : string -> polarity) :
  evaluate polarity_scores Unreadable = Json500 HTTPException /\
  (forall data,
     (forall d, data <> VDict d) ->
     evaluate polarity_scores (Parsed data) = Json500 AttributeError) /\
  (forall d e,
     duration_of d = Raise e ->
     evaluate polarity_scores (Parsed (VDict d)) = Json500 e) /\
  (forall d v z,
     d !! "transcript" = Some v -> (forall s, v <> VStr s) ->
     duration_of d = Ok z ->
     evaluate polarity_scores (Parsed (VDict d)) = Json500 AttributeError).
Proof.
  split; [reflexivity |]. split; [| split].
  - intros data Hnd. destruct data; try reflexivity. now destruct (Hnd d).
  - intros d e He. unfold evaluate. now rewrite before_scoring_dict, He.
  - intros d v z Hv Hns Hz. unfold evaluate.
    rewrite before_scoring_dict, Hz, bind_Ok. unfold transcript_of. rewrite Hv.
    destruct v; try reflexivity. now destruct (Hns s).
Qed.

(** ** The order of the keyword lists *)

Lemma map_fst_filter_sublist (f : string * list string -> bool)
    (items : list (string * list string)) :
  List.map fst (List.filter f items) `sublist_of` List.map fst items.
Proof.
  induction items as [| x l IH]; [constructor |].
  cbn [List.filter List.map]. destruct (f x); cbn [List.map].
  - now apply sublist_skip.
  - now apply sublist_cons.
Qed.

(** The ten category names, required ones first, in the order of the two
    dicts. *)
Definition all_categories : list string :=
  (List.map fst must_have ++ List.map fst good_to_have)%list.

Lemma all_categories_NoDup : NoDup all_categories.
Proof. apply (bool_decide_unpack _). vm_compute. exact I. Qed.

(** X19.  The two lists of the keyword scorer keep the order of the
    rubric: found is the list of the ten category names (required first)
    with some names left out, missing is the list of the five required
    names with some left out, and neither repeats a name. *)
Theorem X19_keyword_lists_ordered (transcript : string) :
  let r := evaluate_keyword_presence transcript in
  Keywords.found r `sublist_of` all_categories /\
  Keywords.missing r `sublist_of` required_categories /\
  NoDup (Keywords.found r) /\ NoDup (Keywords.missing r).
Proof.
  cbv zeta.
  destruct (evaluate_keyword_presence_eq transcript) as (_ & Hf & Hm).
  cbv zeta in Hf, Hm. rewrite Hf, Hm.
  assert (List.map fst (List.filter (hit (lower transcript)) must_have) ++
          List.map fst (List.filter (hit (lower transcript)) good_to_have)
          `sublist_of` all_categories)%list as Hsub1
    by (apply sublist_app; apply map_fst_filter_sublist).
  pose proof (map_fst_filter_sublist (miss (lower transcript)) must_have) as Hsub2.
  fold required_categories in Hsub2.
  split; [exact Hsub1 |]. split; [exact Hsub2 |].
  split.
  - apply (sublist_NoDup _ _ all_categories_NoDup Hsub1).
  - apply (sublist_NoDup _ _ required_categories_NoDup Hsub2).
Qed.

(** ** A phrase shared by two scorers *)

Lemma fold_add_ge (text : string) (l : list string) (filler : string) :
  forall a, 0 <= a -> In filler l ->
    Z.of_nat (count text filler) <=
    fold_left Z.add (List.map (fun f => Z.of_nat (count text f)) l) a.
Proof.
  assert (forall k a, a <= fold_left Z.add (List.map (fun f => Z.of_nat (count text f)) k) a)
    as Hmono.
  { induction k as [| x k IH]; intros a; cbn [List.map fold_left]; [lia |].
    specialize (IH (a + Z.of_nat (count text x))). lia. }
  induction l as [| x l IH]; intros a Ha Hin; [destruct Hin |].
  cbn [List.map fold_left]. destruct Hin as [-> | Hin].
  - specialize (Hmono l (a + Z.of_nat (count text filler))). lia.
  - apply IH; [lia | exact Hin].
Qed.

(** X20.  The word "like" is both a trigger of the hobbies category and a
    filler: a transcript that contains it (in any case, inside a longer
    word too) is credited with the hobbies category by the keyword scorer
    and charged with at least one filler by the clarity scorer. *)
Theorem X20_like_counts_twice (transcript : string) :
  contains "like" (lower transcript) = true ->
  str_fits transcript ->
  "hobbies" ∈ Keywords.found (evaluate_keyword_presence transcript) /\
  exists r, evaluate_clarity transcript = Ok r /\ 1 <= Clarity.filler_count r.
Proof.
  intros Hlike Ht. split.
  - destruct (evaluate_keyword_presence_eq transcript) as (_ & Hf & _).
    cbv zeta in Hf. rewrite Hf.
    apply elem_of_app. left. rewrite list_elem_of_In, in_map_iff.
    exists ("hobbies", ["hobby"; "hobbies"; "enjoy"; "like"; "love"; "play"; "playing"]).
    split; [reflexivity |]. apply filter_In. split.
    + unfold must_have. cbn. tauto.
    + unfold hit, any_in. cbn [snd existsb]. rewrite Hlike.
      now rewrite !orb_true_r.
  - assert (1 <= count_fillers (lower transcript)) as Hcount.
    { pose proof (contains_count_pos _ _ Hlike) as Hpos.
      pose proof (fold_add_ge (lower transcript) FILLER_WORDS "like" 0 ltac:(lia)) as Hge.
      unfold count_fillers. cbn [FILLER_WORDS] in *.
      assert (In "like" FILLER_WORDS) as Hin by (unfold FILLER_WORDS; cbn; tauto).
      specialize (Hge Hin). lia. }
    pose proof (len_split_bounds transcript) as [Hwc _].
    destruct (Z.eq_dec (len (split transcript)) 0) as [H0 | Hn].
    + eexists. split; [apply (evaluate_clarity_nowords _ H0) |]. exact Hcount.
    + assert (Z.abs (count_fillers (lower transcript)) < 2 ^ 1023) as Hfc.
      { pose proof (count_fillers_bounds (lower transcript)) as Hb.
        rewrite lower_length in Hb.
        unfold str_fits, PY_SSIZE_T_MAX in Ht.
        assert (2 ^ 67 < 2 ^ 1023) by (apply Z.pow_lt_mono_r; lia).
        change (2 ^ 63) with 9223372036854775808 in Ht.
        change (2 ^ 67) with 147573952589676412928 in *. lia. }
      destruct (int_truediv_ok _ _ Hfc Hn) as [q Hq].
      assert (0 < len (split transcript)) as Hpos by lia.
      eexists. split; [apply (evaluate_clarity_words _ q Hpos Hq) |]. exact Hcount.
Qed.

Lemma X20_like_counts_twice_witness :
  "hobbies" ∈ Keywords.found (evaluate_keyword_presence "My sister is childlike") /\
  exists r, evaluate_clarity "My sister is childlike" = Ok r /\ 1 <= Clarity.filler_count r.
Proof.
  apply (X20_like_counts_twice "My sister is childlike").
  - reflexivity.
  - unfold str_fits, PY_SSIZE_T_MAX. cbn. lia.
Defined.

(* ===================================================================== *)
(** * The scoring engine with line 144 moved back                          *)
(* ===================================================================== *)

(** The two functions of this module are those of scorer.py with the
    statement [matches = []] of line 144 at the four columns of the
    function body it stands in: [evaluate_grammar] read that way, and
    [evaluate_introduction] calling it.  They describe the file after that
    change and not the file as it is; nothing outside this module refers to
    them. *)
Module Dedented.

Definition evaluate_grammar_dedented (transcript : string) : py Grammar.result :=
  let matches : list string := [] in
  let word_count := len (split transcript) in
  errors_per_100 ←
    (if 0 <? word_count
     then q ← truediv (Int (len matches)) (Int word_count); mul q (Int 100)
     else mret (Int 0));
  r ← truediv errors_per_100 (Int 10);
  d ← sub (Int 1) (min2 r (Int 1));
  let grammar_score := max2 (Int 0) d in
  let score := ratio_band grammar_score in
  shown ← format_f 1 errors_per_100;
  mret {| Grammar.score := score;
          Grammar.errors := len matches;
          Grammar.errors_per_100 := round errors_per_100 2;
          Grammar.feedback :=
            str_of_Z (len matches) ++ " grammar errors found (" ++ shown ++
            " per 100 words)" |}.

Section WithAnalyzer.

Variable polarity_scores : string -> polarity.

Let evaluate_engagement := evaluate_engagement polarity_scores.

Definition evaluate_introduction_dedented (transcript : string) (duration_sec : Z)
  : py report :=
  let salutation := evaluate_salutation transcript in
  let keywords := evaluate_keyword_presence transcript in
  let flow := evaluate_flow transcript in
  let content_score :=
    Salutation.score salutation + Keywords.score keywords + Flow.score flow in
  speech ← evaluate_speech_rate transcript duration_sec;
  grammar ← evaluate_grammar_dedented transcript;
  vocabulary ← evaluate_vocabulary transcript;
  let language_score := Grammar.score grammar + Vocabulary.score vocabulary in
  clarity ← evaluate_clarity transcript;
  engagement ← evaluate_engagement transcript;
  let total_score :=
    content_score + Speech.score speech + language_score +
    Clarity.score clarity + Engagement.score engagement in
  frac ← truediv (Int total_score) (Int 100);
  pct ← mul frac (Int 100);
  mret {| overall_score := total_score;
          max_score := 100;
          percentage := round pct 2;
          cats :=
            {| content_structure :=
                 {| ContentStructure.score := content_score;
                    ContentStructure.max := 40;
                    ContentStructure.salutation := salutation;
                    ContentStructure.keywords := keywords;
                    ContentStructure.flow := flow |};
               speech_rate :=
                 {| SpeechRate.score := Speech.score speech;
                    SpeechRate.max := 10;
                    SpeechRate.details := speech |};
               language_grammar :=
                 {| LanguageGrammar.score := language_score;
                    LanguageGrammar.max := 20;
                    LanguageGrammar.grammar := grammar;
                    LanguageGrammar.vocabulary := vocabulary |};
               clarity :=
                 {| ClarityCat.score := Clarity.score clarity;
                    ClarityCat.max := 15;
                    ClarityCat.details := clarity |};
               engagement :=
                 {| EngagementCat.score := Engagement.score engagement;
                    EngagementCat.max := 15;
                    EngagementCat.details := engagement |} |};
          word_count := len (split transcript);
          duration_sec := duration_sec |}.

End WithAnalyzer.

(** Read that way the scorer returns the same dict for every transcript,
    up to the type of the zero in ['errors_per_100'] ([0.0] after the
    division, the int [0] of the guard otherwise). *)
Lemma evaluate_grammar_dedented_eq (t : string) :
  evaluate_grammar_dedented t =
  Ok {| Grammar.score := 10;
        Grammar.errors := 0;
        Grammar.errors_per_100 :=
          if 0 <? len (split t) then Float (S754_zero false) else Int 0;
        Grammar.feedback := "0 grammar errors found (0.0 per 100 words)" |}.
Proof.
  unfold evaluate_grammar_dedented. cbv zeta.
  destruct (0 <? len (split t)) eqn:Hwc.
  - apply Z.ltb_lt in Hwc.
    rewrite truediv_ints. change (len (@nil string)) with 0.
    rewrite int_truediv_zero by lia.
    replace (len (split t) <? 0) with false by (symmetry; apply Z.ltb_ge; lia).
    vm_compute. reflexivity.
  - vm_compute. reflexivity.
Qed.

(** With line 144 moved back the grammar scorer is the fixed pass of the
    rubric: 0 errors, an [errors_per_100] of zero and the score 10 for
    every transcript, the division being guarded. *)
Lemma dedented_grammar_fixed_pass (transcript : string) :
  exists r,
    evaluate_grammar_dedented transcript = Ok r /\
    Grammar.errors r = 0 /\
    eq (Grammar.errors_per_100 r) (Int 0) = true /\
    Grammar.score r = 10 /\
    Grammar.errors_per_100 r =
      (if len (split transcript) =? 0 then Int 0 else Float (S754_zero false)).
Proof.
  eexists. split; [apply evaluate_grammar_dedented_eq |].
  cbn [Grammar.errors Grammar.errors_per_100 Grammar.score].
  pose proof (len_split_bounds transcript) as Hb.
  destruct (Z.eqb_spec (len (split transcript)) 0) as [H0 | Hn].
  - rewrite H0. repeat split; reflexivity.
  - replace (0 <? len (split transcript)) with true by (symmetry; apply Z.ltb_lt; lia).
    repeat split; reflexivity.
Qed.

(** With line 144 moved back the aggregator returns, for every transcript
    (that the interpreter can hold) and every positive duration, a report
    with the invariant of the rubric. *)
Lemma dedented_report_invariant
    (polarity_scores : string -> polarity) (transcript : string) (duration : Z) :
  0 < duration ->
  str_fits transcript ->
  exists r,
    evaluate_introduction_dedented polarity_scores transcript duration = Ok r /\
    report_invariant r.
Proof.
  intros Hd Ht.
  destruct (evaluate_speech_rate_ok transcript duration ltac:(lia) Ht) as [sp [Hsp Hsp_r]].
  destruct (evaluate_vocabulary_ok transcript Ht) as [vo [Hvo Hvo_r]].
  destruct (evaluate_clarity_ok transcript Ht) as [cl [Hcl Hcl_r]].
  pose proof (evaluate_salutation_range transcript) as Hsal.
  pose proof (evaluate_keyword_presence_range transcript) as Hkw.
  pose proof (evaluate_flow_range transcript) as Hfl.
  pose proof (engagement_band_range (Float (pos (polarity_scores transcript)))) as Hen.
  cbv zeta in Hsal, Hfl, Hen.
  unfold evaluate_introduction_dedented. cbv zeta.
  rewrite Hsp, bind_Ok, evaluate_grammar_dedented_eq, bind_Ok, Hvo, bind_Ok, Hcl, bind_Ok,
    evaluate_engagement_eq, bind_Ok.
  cbn [Grammar.score Engagement.score].
  set (total := Salutation.score (evaluate_salutation transcript) +
                Keywords.score (evaluate_keyword_presence transcript) +
                Flow.score (evaluate_flow transcript) + Speech.score sp +
                (10 + Vocabulary.score vo) + Clarity.score cl +
                engagement_band (Float (pos (polarity_scores transcript)))).
  assert (0 <= total <= 100) as Htotal by (subst total; lia).
  destruct (percentage_steps total Htotal) as (frac & pct & Hfrac & Hpct & Heq).
  rewrite Hfrac, bind_Ok, Hpct, bind_Ok.
  eexists. split; [reflexivity |].
  unfold report_invariant.
  cbn [cats content_structure speech_rate language_grammar clarity engagement
       overall_score percentage
       ContentStructure.score ContentStructure.max ContentStructure.salutation
       ContentStructure.keywords ContentStructure.flow
       SpeechRate.score SpeechRate.max SpeechRate.details
       LanguageGrammar.score LanguageGrammar.max LanguageGrammar.grammar
       LanguageGrammar.vocabulary
       ClarityCat.score ClarityCat.max ClarityCat.details
       EngagementCat.score EngagementCat.max EngagementCat.details
       Grammar.score Engagement.score].
  subst total.
  repeat match goal with |- _ /\ _ => split end; try reflexivity; try exact Heq; lia.
Qed.

End Dedented.
